(** * The sample calculator of [samples/python/main.py]

    A shallow embedding of the [Calculator] class and of the part of the
    Python run time it calls into, followed by the properties the
    specification states about it.

    Python numbers are modelled as they are at run time: arbitrary
    precision integers ([Z]) and IEEE-754 binary64 floats (the kernel's
    primitive [float], whose [+ - * /] and [sqrt] are the correctly rounded
    operations CPython uses).  What CPython 3.11 takes from the platform's
    C library ([log], [pow] and the complex power) is a parameter of the
    development.  Where a statement is about the accuracy of a float
    result, the floats are read as the rational numbers they stand for
    ([float_value]) and compared in exact arithmetic. *)

From Stdlib Require Import ZArith QArith Qpower Qabs Lqa String List Floats.
From stdpp Require Import gmap strings.
Import ListNotations.

Open Scope string_scope.
Open Scope list_scope.
Open Scope Z_scope.

(** ** Python values, exceptions and the numeric operators *)

Module Py.

(** What the annotation [float] admits: an [int] or a [float]. *)
Inductive number : Type :=
  | Int (z : Z)
  | Float (f : float).

(** What an operator can return: [**] leaves the reals for a negative base
    and a fractional exponent. *)
Inductive value : Type :=
  | Num (n : number)
  | Complex (re im : float).

Inductive exn : Type :=
  | ValueError (msg : string)
  | ZeroDivisionError
  | OverflowError
  | TypeError
  | KeyError
  | IndexError.

Inductive result (A : Type) : Type :=
  | Ok (a : A)
  | Raise (e : exn).

Arguments Ok {A} a.
Arguments Raise {A} e.

Definition bind {A B : Type} (r : result A) (k : A -> result B) : result B :=
  match r with
  | Ok a => k a
  | Raise e => Raise e
  end.

Definition map {A B : Type} (f : A -> B) (r : result A) : result B :=
  bind r (fun a => Ok (f a)).

Module Import Notations.
  Notation "'let*' x := r 'in' k" := (bind r (fun x => k))
    (at level 10, x name, r at level 100, k at level 200).
End Notations.

(** The C library behind [math.log], [float.__pow__] and
    [complex.__pow__].  [c_cpow x y] is the pair (real, imaginary) of
    [(x+0j) ** (y+0j)] as complexobject.c computes it from [hypot], [pow],
    [atan2], [cos] and [sin]. *)
Record libm : Type := {
  c_log : float -> float;
  c_pow : float -> float -> float;
  c_cpow : float -> float -> float * float
}.

(** *** Conversions *)

(** The float nearest to an integer, ties to even; [infinity] past the
    largest finite float. *)
Definition float_of_Z (z : Z) : float :=
  SF2Prim (binary_normalize prec emax z 0 false).

(** [PyLong_AsDouble]. *)
Definition long_as_double (z : Z) : result float :=
  let f := float_of_Z z in
  if is_infinity f then Raise OverflowError else Ok f.

(** [PyFloat_AsDouble] on an [int] or a [float]. *)
Definition as_double (n : number) : result float :=
  match n with
  | Int z => long_as_double z
  | Float f => Ok f
  end.

(** The integer a float is equal to, when it is one. *)
Definition integral_value (x : float) : option Z :=
  match Prim2SF x with
  | S754_zero _ => Some 0
  | S754_finite s m e =>
      let z := if s then Z.neg m else Z.pos m in
      if 0 <=? e then Some (z * 2 ^ e)
      else if Z.pos m mod 2 ^ (- e) =? 0 then Some (z / 2 ^ (- e))
      else None
  | _ => None
  end.

(** [x == floor(x)] for a finite [x]. *)
Definition is_integer (x : float) : bool :=
  match integral_value x with Some _ => true | None => false end.

(** [DOUBLE_IS_ODD_INTEGER]: [fmod(fabs(x), 2.0) == 1.0]. *)
Definition is_odd_integer (x : float) : bool :=
  match integral_value x with Some z => Z.odd z | None => false end.

(** [copysign(0.0, x)] for a non-NaN [x]. *)
Definition copysign_zero (x : float) : float :=
  if get_sign x then (- 0)%float else 0%float.

(** *** Comparisons with the literal [0] *)

(** [n == 0] *)
Definition eq_zero (n : number) : bool :=
  match n with
  | Int z => z =? 0
  | Float f => (f =? 0)%float
  end.

(** [n < 0] *)
Definition lt_zero (n : number) : bool :=
  match n with
  | Int z => z <? 0
  | Float f => (f <? 0)%float
  end.

(** [n <= 0] *)
Definition le_zero (n : number) : bool :=
  match n with
  | Int z => z <=? 0
  | Float f => (f <=? 0)%float
  end.

(** [n > 0] *)
Definition gt_zero (n : number) : bool :=
  match n with
  | Int z => 0 <? z
  | Float f => (0 <? f)%float
  end.

(** *** [+], [-], [*] *)

(** Two ints stay exact; otherwise both sides become floats. *)
Definition arith (iop : Z -> Z -> Z) (fop : float -> float -> float)
    (a b : number) : result number :=
  match a, b with
  | Int x, Int y => Ok (Int (iop x y))
  | _, _ =>
      let* x := as_double a in
      let* y := as_double b in
      Ok (Float (fop x y))
  end.

Definition add : number -> number -> result number := arith Z.add PrimFloat.add.
Definition sub : number -> number -> result number := arith Z.sub PrimFloat.sub.
Definition mul : number -> number -> result number := arith Z.mul PrimFloat.mul.

(** *** [/] *)

(** [long_true_divide]: the float nearest to the exact quotient.  The
    quotient is taken with at least 56 significant bits and a sticky bit
    for the remainder, then rounded once. *)
Definition long_true_divide (x y : Z) : result float :=
  if y =? 0 then Raise ZeroDivisionError else
  let negate := xorb (x <? 0) (y <? 0) in
  let n := Z.abs x in
  let d := Z.abs y in
  if n =? 0 then Ok (if negate then - 0 else 0)%float else
  let shift := Z.max 0 (Z.log2 d + 56 - Z.log2 n) in
  let q := (n * 2 ^ shift) / d in
  let sticky := if (n * 2 ^ shift) mod d =? 0 then 0 else 1 in
  let f := SF2Prim (binary_normalize prec emax (2 * q + sticky) (- (shift + 1)) false) in
  if is_infinity f then Raise OverflowError
  else Ok (if negate then - f else f)%float.

(** [float_div] *)
Definition float_div (x y : float) : result float :=
  if (y =? 0)%float then Raise ZeroDivisionError else Ok (x / y)%float.

Definition truediv (a b : number) : result number :=
  match a, b with
  | Int x, Int y => map Float (long_true_divide x y)
  | _, _ =>
      let* x := as_double a in
      let* y := as_double b in
      map Float (float_div x y)
  end.

Section WithLibm.

Variable L : libm.

(** *** [**] *)

(** [complex_pow] reached from [float_pow]: the base is non-zero and the
    exponent is not an integer; an infinite component is a range error. *)
Definition complex_pow (x y : float) : result value :=
  let (re, im) := c_cpow L x y in
  if is_infinity re || is_infinity im then Raise OverflowError
  else Ok (Complex re im).

(** [float_pow] of floatobject.c, case by case.  The C library is asked
    only for a finite positive base other than 1 and a finite non-zero
    exponent; [errno == ERANGE] after [_Py_ADJUST_ERANGE1] is an infinite
    result. *)
Definition float_pow (iv iw : float) : result value :=
  if (iw =? 0)%float then Ok (Num (Float 1))
  else if is_nan iv then Ok (Num (Float iv))
  else if is_nan iw then Ok (Num (Float (if (iv =? 1)%float then 1%float else iw)))
  else if is_infinity iw then
    let iv := abs iv in
    if (iv =? 1)%float then Ok (Num (Float 1))
    else if Bool.eqb (0 <? iw)%float (1 <? iv)%float then Ok (Num (Float (abs iw)))
    else Ok (Num (Float 0))
  else if is_infinity iv then
    let iw_is_odd := is_odd_integer iw in
    if (0 <? iw)%float then Ok (Num (Float (if iw_is_odd then iv else abs iv)))
    else Ok (Num (Float (if iw_is_odd then copysign_zero iv else 0%float)))
  else if (iv =? 0)%float then
    if (iw <? 0)%float then Raise ZeroDivisionError
    else Ok (Num (Float (if is_odd_integer iw then iv else 0%float)))
  else if (iv <? 0)%float && negb (is_integer iw) then complex_pow iv iw
  else
    let negate_result := (iv <? 0)%float && is_odd_integer iw in
    let iv := if (iv <? 0)%float then (- iv)%float else iv in
    if (iv =? 1)%float then Ok (Num (Float (if negate_result then (- 1)%float else 1%float)))
    else
      let ix := c_pow L iv iw in
      if is_infinity ix then Raise OverflowError
      else Ok (Num (Float (if negate_result then (- ix)%float else ix))).

(** [long_pow] with no modulus: exact for a non-negative exponent, the
    float power otherwise. *)
Definition pow (a b : number) : result value :=
  match a, b with
  | Int x, Int y =>
      if 0 <=? y then Ok (Num (Int (x ^ y)))
      else
        let* iv := long_as_double x in
        let* iw := long_as_double y in
        float_pow iv iw
  | _, _ =>
      let* iv := as_double a in
      let* iw := as_double b in
      float_pow iv iw
  end.

(** *** [math.sqrt] *)

(** [math_1(arg, sqrt, 0)]: a NaN result of a non-NaN argument is a domain
    error. *)
Definition math_sqrt (a : number) : result number :=
  let* x := as_double a in
  let r := PrimFloat.sqrt x in
  if is_nan r && negb (is_nan x) then Raise (ValueError "math domain error")
  else Ok (Float r).

(** *** [math.log] *)

(** [m_log] of mathmodule.c: the C library is asked only for a finite
    positive argument. *)
Definition m_log (x : float) : float :=
  if is_finite x then
    if (0 <? x)%float then c_log L x
    else if (x =? 0)%float then neg_infinity
    else nan
  else if is_nan x then x
  else if (0 <? x)%float then x
  else nan.

(** [_PyLong_Frexp]: a positive [z] as [x * 2 ** e] with [0.5 <= x < 1],
    [x] rounded to the nearest float. *)
Definition long_frexp (z : Z) : float * Z :=
  let e := Z.log2 z + 1 in
  let x := SF2Prim (binary_normalize prec emax z (- e) false) in
  if (x =? 1)%float then (0.5%float, e + 1) else (x, e).

(** [loghelper(arg, m_log)] *)
Definition loghelper (arg : number) : result float :=
  match arg with
  | Int z =>
      if z <=? 0 then Raise (ValueError "math domain error")
      else
        match long_as_double z with
        | Ok x => Ok (m_log x)
        | Raise _ =>
            let (x, e) := long_frexp z in
            Ok (m_log x + m_log 2 * float_of_Z e)%float
        end
  | Float x =>
      let r := m_log x in
      if is_nan r && negb (is_nan x) then Raise (ValueError "math domain error")
      else if is_infinity r && is_finite x then Raise (ValueError "math domain error")
      else Ok r
  end.

(** [math.log(x, base)]: the quotient of the two natural logarithms. *)
Definition math_log (x base : number) : result number :=
  let* num := loghelper x in
  let* den := loghelper base in
  map Float (float_div num den).

End WithLibm.

(** *** Sequences, dictionaries and [json.dumps] *)

(** [xs[i]] *)
Definition getitem {A : Type} (xs : list A) (i : nat) : result A :=
  match xs !! i with
  | Some x => Ok x
  | None => Raise IndexError
  end.

(** [d[k]] *)
Definition dict_getitem {A : Type} (d : gmap string A) (k : string) : result A :=
  match d !! k with
  | Some x => Ok x
  | None => Raise KeyError
  end.

(** [k in d] *)
Definition dict_contains {A : Type} (d : gmap string A) (k : string) : bool :=
  bool_decide (is_Some (d !! k)).

(** The character [U+0022]. *)
Definition dquote : string := String (Ascii.ascii_of_nat 34) EmptyString.

(** [json.dumps] of a dictionary from strings to strings none of which
    needs escaping: the items in insertion order, [", "] between them and
    [": "] inside them. *)
Definition json_dumps (d : list (string * string)) : string :=
  let item (kv : string * string) :=
    dquote +:+ fst kv +:+ dquote +:+ ": " +:+ dquote +:+ snd kv +:+ dquote in
  "{" +:+ String.concat ", " (List.map item d) +:+ "}".

End Py.

(** ** The calculator *)

Module Calculator.

Import Py Py.Notations.

(** [@dataclass class Calculation] *)
Record Calculation : Type := {
  operation : string;
  operands : list number;
  result : value;
  timestamp : string
}.

(** A bound method stored in a dictionary, called with positional
    arguments. *)
Definition method : Type := list number -> Py.result value.

(** The attributes of a [Calculator] object. *)
Record instance : Type := {
  history : list Calculation;
  operations : gmap string method
}.

(** Method bodies run against the object: they return or raise, and leave
    an object behind. *)
Definition M (A : Type) : Type := instance -> Py.result A * instance.

Definition ret {A : Type} (a : A) : M A := fun self => (Ok a, self).

Definition raise {A : Type} (e : exn) : M A := fun self => (Raise e, self).

Definition lift {A : Type} (r : Py.result A) : M A := fun self => (r, self).

Definition seq {A B : Type} (m : M A) (k : A -> M B) : M B :=
  fun self =>
    match m self with
    | (Ok a, self') => k a self'
    | (Raise e, self') => (Raise e, self')
    end.

Notation "'let!' x := m 'in' k" := (seq m (fun x => k))
  (at level 10, x name, m at level 100, k at level 200).

(** [self.operations] *)
Definition self_operations : M (gmap string method) :=
  fun self => (Ok (operations self), self).

(** [self.history.append(calc)] *)
Definition history_append (calc : Calculation) : M unit :=
  fun self =>
    (Ok tt, {| history := history self ++ [calc]; operations := operations self |}).

Section WithLibm.

Variable L : libm.

(** [a + b] *)
Definition add (a b : number) : Py.result value := Py.map Num (Py.add a b).

(** [a - b] *)
Definition subtract (a b : number) : Py.result value := Py.map Num (Py.sub a b).

(** [a * b] *)
Definition multiply (a b : number) : Py.result value := Py.map Num (Py.mul a b).

Definition divide (a b : number) : Py.result value :=
  if eq_zero b then Raise (ValueError "Cannot divide by zero")
  else Py.map Num (truediv a b).

(** [a ** b] *)
Definition power (a b : number) : Py.result value := Py.pow L a b.

Definition sqrt (a : number) : Py.result value :=
  if lt_zero a then Raise (ValueError "Cannot calculate square root of negative number")
  else Py.map Num (math_sqrt a).

(** [base] is 10 when the caller leaves it out (see [log_method]). *)
Definition log (a base : number) : Py.result value :=
  if le_zero a || le_zero base then Raise (ValueError "Invalid arguments for logarithm")
  else Py.map Num (math_log L a base).

(** Calling a method of one or two parameters with a tuple of arguments:
    any other number of arguments is a [TypeError]. *)
Definition unary (f : number -> Py.result value) : method :=
  fun args =>
    match args with
    | [a] => f a
    | _ => Raise TypeError
    end.

Definition binary (f : number -> number -> Py.result value) : method :=
  fun args =>
    match args with
    | [a; b] => f a b
    | _ => Raise TypeError
    end.

(** [log(self, a, base=10)] *)
Definition log_method : method :=
  fun args =>
    match args with
    | [a] => log a (Int 10)
    | [a; base] => log a base
    | _ => Raise TypeError
    end.

(** [Calculator()]: an empty history and the seven operations. *)
Definition __init__ : instance :=
  {| history := [];
     operations :=
       <["+" := binary add]>
       (<["-" := binary subtract]>
       (<["*" := binary multiply]>
       (<["/" := binary divide]>
       (<["**" := binary power]>
       (<["sqrt" := unary sqrt]>
       (<["log" := log_method]> ∅)))))) |}.

End WithLibm.

(** [len(operands)] *)
Definition len {A : Type} (xs : list A) : Z := Z.of_nat (length xs).

Definition calculate (operation : string) (operands : list number) : M value :=
  let! ops := self_operations in
  if negb (dict_contains ops operation) then
    raise (ValueError ("Unknown operation: " +:+ operation))
  else
    let! result :=
      (if bool_decide (operation ∈ ["sqrt"; "log"]) then
         if len operands =? 1 then
           let! f := lift (dict_getitem ops operation) in
           let! a := lift (getitem operands 0) in
           lift (f [a])
         else if (len operands =? 2) && bool_decide (operation = "log") then
           let! f := lift (dict_getitem ops operation) in
           let! a := lift (getitem operands 0) in
           let! b := lift (getitem operands 1) in
           lift (f [a; b])
         else
           raise (ValueError ("Operation " +:+ operation +:+ " requires 1-2 operands"))
       else
         if len operands <? 2 then
           raise (ValueError ("Operation " +:+ operation +:+ " requires at least 2 operands"))
         else
           let! f := lift (dict_getitem ops operation) in
           let! a := lift (getitem operands 0) in
           let! b := lift (getitem operands 1) in
           lift (f [a; b])) in
    let calc :=
      {| operation := operation;
         operands := operands;
         result := result;
         timestamp := json_dumps [("time", "now")] |} in
    let! done := history_append calc in
    ret result.

Definition get_history : M (list Calculation) :=
  fun self => (Ok (history self), self).

Definition clear_history : M unit :=
  fun self => (Ok tt, {| history := []; operations := operations self |}).

(** The seven calls of [main]'s [try] block, in order, on a new
    calculator; what [main] prints of each result is left out, the results
    are returned instead. *)
Definition main_calls : M (list value) :=
  let! r1 := calculate "+" [Int 2; Int 3] in
  let! r2 := calculate "-" [Int 10; Int 4] in
  let! r3 := calculate "*" [Int 5; Int 6] in
  let! r4 := calculate "/" [Int 15; Int 3] in
  let! r5 := calculate "**" [Int 2; Int 8] in
  let! r6 := calculate "sqrt" [Int 16] in
  let! r7 := calculate "log" [Int 100] in
  ret [r1; r2; r3; r4; r5; r6; r7].

End Calculator.

Import Py Calculator.

(** ** Vocabulary of the statements *)

(** The text [json.dumps] produces for [main.py]'s timestamp dictionary:
    an opening brace, [time] and [now] between double quotes with a colon
    and a space between them, a closing brace. *)
Definition time_now : string :=
  "{" +:+ dquote +:+ "time" +:+ dquote +:+ ": " +:+ dquote +:+ "now" +:+ dquote +:+ "}".

(** The record a successful [calculate operation operands] builds. *)
Definition record_of (operation : string) (operands : list number) (v : value) : Calculation :=
  {| operation := operation;
     operands := operands;
     result := v;
     timestamp := json_dumps [("time", "now")] |}.

(** The object after one [self.history.append(calc)]. *)
Definition appended (self : instance) (calc : Calculation) : instance :=
  {| history := history self ++ [calc]; operations := operations self |}.

(** A calculator as its constructor made it, with some history [h]. *)
Definition with_history (L : libm) (h : list Calculation) : instance :=
  {| history := h; operations := operations (__init__ L) |}.

(** The operation symbols of the constructor's dictionary. *)
Definition symbols : list string := ["+"; "-"; "*"; "/"; "**"; "sqrt"; "log"].

(** The symbols [calculate] treats as taking two operands. *)
Definition binary_symbols : list string := ["+"; "-"; "*"; "/"; "**"].

(** What a call computes before it touches the history: [calculate]'s
    look-up, operand-count checks and dispatch, by cases on the operand
    list.  [calculate_outcome] below relates it to [calculate]. *)
Definition outcome (ops : gmap string method) (op : string) (args : list number)
    : Py.result value :=
  match ops !! op with
  | None => Raise (ValueError ("Unknown operation: " +:+ op))
  | Some f =>
      if bool_decide (op ∈ ["sqrt"; "log"]) then
        match args with
        | [a] => f [a]
        | [a; b] =>
            if bool_decide (op = "log") then f [a; b]
            else Raise (ValueError ("Operation " +:+ op +:+ " requires 1-2 operands"))
        | _ => Raise (ValueError ("Operation " +:+ op +:+ " requires 1-2 operands"))
        end
      else
        match args with
        | a :: b :: _ => f [a; b]
        | _ => Raise (ValueError ("Operation " +:+ op +:+ " requires at least 2 operands"))
        end
  end.

(** The objects a program can hold: the constructor's, and what
    [calculate], [get_history] and [clear_history] leave behind. *)
Inductive reachable (L : libm) : instance -> Prop :=
  | reachable_init : reachable L (__init__ L)
  | reachable_calculate self op args :
      reachable L self -> reachable L (snd (calculate op args self))
  | reachable_get_history self :
      reachable L self -> reachable L (snd (get_history self))
  | reachable_clear_history self :
      reachable L self -> reachable L (snd (clear_history self)).

(** The history [main]'s seven calls build, in call order. *)
Definition main_history : list Calculation :=
  [ record_of "+" [Int 2; Int 3] (Num (Int 5));
    record_of "-" [Int 10; Int 4] (Num (Int 6));
    record_of "*" [Int 5; Int 6] (Num (Int 30));
    record_of "/" [Int 15; Int 3] (Num (Float 5));
    record_of "**" [Int 2; Int 8] (Num (Int 256));
    record_of "sqrt" [Int 16] (Num (Float 4));
    record_of "log" [Int 100] (Num (Float 2)) ].

(** A float as SpecFloat sees it is a number and not below zero: not NaN,
    and of positive sign unless zero. *)
Definition nonneg_sf (x : spec_float) : Prop :=
  match x with
  | S754_zero _ => True
  | S754_infinity s | S754_finite s _ _ => s = false
  | S754_nan => False
  end.

(** A C library for closed examples: the natural logarithm, correctly
    rounded, at the three arguments the examples reach (1, 10 and 100), and
    NaN wherever the examples do not go. *)
Definition table_log (x : float) : float :=
  if (x =? 1)%float then 0%float
  else if (x =? 10)%float then 0x1.26bb1bbb55516p+1%float
  else if (x =? 100)%float then 0x1.26bb1bbb55516p+2%float
  else nan.

Definition table_libm : libm :=
  {| c_log := table_log;
     c_pow := fun _ _ => nan;
     c_cpow := fun _ _ => (nan, nan) |}.

(** A float as SpecFloat sees it is finite and not zero, or infinite, and
    has the sign [s]. *)
Definition nonzero_sf (s : bool) (x : spec_float) : Prop :=
  match x with
  | S754_finite s' _ _ | S754_infinity s' => s' = s
  | _ => False
  end.

(** A [try] block of calls to [calculate], one after the other, as in
    [main]: the first call that raises ends the block. *)
Fixpoint calculate_all (calls : list (string * list number)) : M (list value) :=
  match calls with
  | [] => ret []
  | call :: rest =>
      let! r := calculate (fst call) (snd call) in
      let! rs := calculate_all rest in
      ret (r :: rs)
  end.

(** The operations and operands of [main]'s seven calls. *)
Definition main_arguments : list (string * list number) :=
  [ ("+", [Int 2; Int 3]); ("-", [Int 10; Int 4]); ("*", [Int 5; Int 6]);
    ("/", [Int 15; Int 3]); ("**", [Int 2; Int 8]); ("sqrt", [Int 16]);
    ("log", [Int 100]) ].

(** The records of calls that returned [vs], in call order. *)
Fixpoint records_of (calls : list (string * list number)) (vs : list value)
    : list Calculation :=
  match calls, vs with
  | call :: calls', v :: vs' => record_of (fst call) (snd call) v :: records_of calls' vs'
  | _, _ => []
  end.

(** The texts of the [ValueError]s a call with a known operation [op] can
    raise: the two operand-count errors of [calculate], the three of
    [divide], [sqrt] and [log], and the [math] module's own. *)
Definition known_messages (op : string) : list string :=
  [ "Operation " +:+ op +:+ " requires 1-2 operands";
    "Operation " +:+ op +:+ " requires at least 2 operands";
    "Cannot divide by zero";
    "Cannot calculate square root of negative number";
    "Invalid arguments for logarithm";
    "math domain error" ].

(** The exceptions of a call with one of the seven symbols: [OverflowError],
    [ZeroDivisionError] from [**] and [log] only, and [ValueError] with one
    of the texts above. *)
Definition known_error (op : string) (e : exn) : Prop :=
  e = OverflowError \/
  (e = ZeroDivisionError /\ (op = "**" \/ op = "log")) \/
  (exists msg, e = ValueError msg /\ msg ∈ known_messages op).

(** What a record of the history looks like: a known operation with a
    number of operands [calculate] accepts for it. *)
Definition well_formed (c : Calculation) : Prop :=
  operation c ∈ symbols /\
  (operation c = "sqrt" -> length (operands c) = 1%nat) /\
  (operation c = "log" -> length (operands c) = 1%nat \/ length (operands c) = 2%nat) /\
  (operation c ∈ binary_symbols -> (2 <= length (operands c))%nat).

(** A C library for the example of a complex result: what CPython
    computes for [(-8.0) ** 0.5], and NaN elsewhere. *)
Definition table_cpow (x y : float) : float * float :=
  if (x =? -8)%float && (y =? 0.5)%float
  then (0x1.8f5a0be038ed7p-53%float, 0x1.6a09e667f3bcdp+1%float)
  else (nan, nan).

Definition complex_libm : libm :=
  {| c_log := table_log; c_pow := fun _ _ => nan; c_cpow := table_cpow |}.

(** [n >= 0] *)
Definition ge_zero (n : number) : bool :=
  match n with
  | Int z => 0 <=? z
  | Float f => (0 <=? f)%float
  end.

(** The rational number a finite float stands for: mantissa times two to
    the exponent, with its sign; zero for the zeros (and for infinities and
    NaN, which stand for no number). *)
Definition sf_value (x : spec_float) : Q :=
  match x with
  | S754_finite s m e => inject_Z (if s then Z.neg m else Z.pos m) * 2 ^ e
  | _ => 0
  end.

Definition float_value (x : float) : Q := sf_value (Prim2SF x).

(** The rational value of a Python number. *)
Definition number_value (n : number) : Q :=
  match n with
  | Int z => inject_Z z
  | Float x => float_value x
  end.

(** The unit in the last place of a finite float: two to its exponent. *)
Definition ulp (x : float) : Q :=
  match Prim2SF x with
  | S754_finite _ _ e => 2 ^ e
  | _ => 0
  end.

(** The relative error allowed between the square of a computed root and
    the operand: four units of the 52-bit fraction of a binary64 float. *)
Definition tolerance : Q := 2 ^ (-50).

(** ** The dictionary of operations *)

Lemma time_now_json : json_dumps [("time", "now")] = time_now.
Proof. reflexivity. Qed.

Lemma operations_lookup (L : libm) (op : string) :
  operations (__init__ L) !! op =
    if decide ("+" = op) then Some (binary (add))
    else if decide ("-" = op) then Some (binary subtract)
    else if decide ("*" = op) then Some (binary multiply)
    else if decide ("/" = op) then Some (binary divide)
    else if decide ("**" = op) then Some (binary (power L))
    else if decide ("sqrt" = op) then Some (unary Calculator.sqrt)
    else if decide ("log" = op) then Some (log_method L)
    else None.
Proof.
  unfold __init__; cbn [operations].
  rewrite !lookup_insert, lookup_empty. reflexivity.
Qed.

Lemma operations_unknown (L : libm) (op : string) :
  op ∉ symbols -> operations (__init__ L) !! op = None.
Proof.
  intros Hop. rewrite operations_lookup.
  unfold symbols in Hop. rewrite !not_elem_of_cons in Hop.
  repeat (case_decide; [subst op; exfalso; intuition congruence |]).
  reflexivity.
Qed.

Lemma operations_known (L : libm) (op : string) :
  op ∈ symbols -> is_Some (operations (__init__ L) !! op).
Proof.
  intros Hop. rewrite operations_lookup.
  repeat (case_decide; [eauto |]).
  exfalso. unfold symbols in Hop.
  rewrite !elem_of_cons, elem_of_nil in Hop. intuition congruence.
Qed.

(** ** [calculate], call by call *)

Lemma len_nil {A : Type} : len (@nil A) = 0.
Proof. reflexivity. Qed.

Lemma len_cons {A : Type} (x : A) (xs : list A) : len (x :: xs) = len xs + 1.
Proof. unfold len. cbn [length]. lia. Qed.

Lemma len_nonneg {A : Type} (xs : list A) : 0 <= len xs.
Proof. unfold len. lia. Qed.

(** Decide the comparisons of [len] with a literal that the goal holds. *)
Ltac len_cases :=
  repeat match goal with
  | |- context [len (_ :: _)] => rewrite len_cons
  | |- context [len []] => rewrite len_nil
  end;
  repeat match goal with
  | |- context [len ?xs] =>
      lazymatch goal with
      | _ : 0 <= len xs |- _ => fail
      | _ => pose proof (len_nonneg xs)
      end
  end;
  repeat match goal with
  | |- context [?x =? ?y] => destruct (Z.eqb_spec x y); try lia
  | |- context [?x <? ?y] => destruct (Z.ltb_spec x y); try lia
  end.

(** [calculate] is [outcome] followed, on success only, by one append. *)
Lemma calculate_outcome (op : string) (args : list number) (self : instance) :
  calculate op args self =
    match outcome (operations self) op args with
    | Ok v => (Ok v, appended self (record_of op args v))
    | Raise e => (Raise e, self)
    end.
Proof.
  unfold calculate, outcome, seq, self_operations, dict_contains, dict_getitem.
  destruct (operations self !! op) as [f|] eqn:Hf.
  - rewrite bool_decide_true by eauto. cbn [negb].
    destruct (bool_decide (op ∈ ["sqrt"; "log"])).
    + destruct args as [|a [|b [|c rest]]]; len_cases;
        cbn [andb lift raise getitem lookup list_lookup];
        try destruct (bool_decide (op = "log"));
        cbn [andb lift raise getitem lookup list_lookup];
        try reflexivity;
        match goal with
        | |- context [f ?xs] => destruct (f xs); reflexivity
        end.
    + destruct args as [|a [|b rest]]; len_cases;
        cbn [lift raise getitem lookup list_lookup];
        try reflexivity;
        match goal with
        | |- context [f ?xs] => destruct (f xs); reflexivity
        end.
  - rewrite bool_decide_false by (intros [? ?]; discriminate). reflexivity.
Qed.

Lemma init_with_history (L : libm) : __init__ L = with_history L [].
Proof. reflexivity. Qed.

Lemma calculate_with_history (L : libm) (h : list Calculation)
    (op : string) (args : list number) :
  calculate op args (with_history L h) =
    match outcome (operations (__init__ L)) op args with
    | Ok v => (Ok v, with_history L (h ++ [record_of op args v]))
    | Raise e => (Raise e, with_history L h)
    end.
Proof. rewrite calculate_outcome. reflexivity. Qed.

(** Every object a program can hold still has the constructor's
    dictionary. *)
Lemma reachable_with_history (L : libm) (self : instance) :
  reachable L self -> exists h, self = with_history L h.
Proof.
  induction 1 as [|self op args _ [h ->]|self _ [h ->]|self _ [h ->]].
  - exists []. reflexivity.
  - rewrite calculate_with_history.
    destruct (outcome _ op args); eexists; reflexivity.
  - exists h. reflexivity.
  - exists []. reflexivity.
Qed.

(** The dispatch of each symbol, for the operand counts [calculate]
    accepts. *)
Section Dispatch.

Variable L : libm.

Local Abbreviation ops := (operations (__init__ L)).

Lemma outcome_add a b rest : outcome ops "+" (a :: b :: rest) = add a b.
Proof. reflexivity. Qed.

Lemma outcome_subtract a b rest : outcome ops "-" (a :: b :: rest) = subtract a b.
Proof. reflexivity. Qed.

Lemma outcome_multiply a b rest : outcome ops "*" (a :: b :: rest) = multiply a b.
Proof. reflexivity. Qed.

Lemma outcome_divide a b rest : outcome ops "/" (a :: b :: rest) = divide a b.
Proof. reflexivity. Qed.

Lemma outcome_power a b rest : outcome ops "**" (a :: b :: rest) = power L a b.
Proof. reflexivity. Qed.

Lemma outcome_sqrt a : outcome ops "sqrt" [a] = Calculator.sqrt a.
Proof. reflexivity. Qed.

Lemma outcome_log1 a : outcome ops "log" [a] = log L a (Int 10).
Proof. reflexivity. Qed.

Lemma outcome_log2 a base : outcome ops "log" [a; base] = log L a base.
Proof. reflexivity. Qed.

Lemma outcome_unknown op args :
  op ∉ symbols -> outcome ops op args = Raise (ValueError ("Unknown operation: " +:+ op)).
Proof.
  intros Hop. unfold outcome. rewrite operations_unknown by assumption.
  reflexivity.
Qed.

(** Wrong operand counts. *)
Lemma outcome_sqrt_count args :
  length args <> 1%nat ->
  outcome ops "sqrt" args = Raise (ValueError "Operation sqrt requires 1-2 operands").
Proof.
  intros Hn. destruct args as [|a [|b [|c rest]]]; try reflexivity.
  cbn in Hn. congruence.
Qed.

Lemma outcome_log_count args :
  length args <> 1%nat -> length args <> 2%nat ->
  outcome ops "log" args = Raise (ValueError "Operation log requires 1-2 operands").
Proof.
  intros H1 H2. destruct args as [|a [|b [|c rest]]]; try reflexivity;
    cbn in H1, H2; congruence.
Qed.

Lemma outcome_binary_count op args :
  op ∈ binary_symbols -> (length args < 2)%nat ->
  outcome ops op args =
    Raise (ValueError ("Operation " +:+ op +:+ " requires at least 2 operands")).
Proof.
  intros Hop Hn. unfold binary_symbols in Hop.
  rewrite !elem_of_cons, elem_of_nil in Hop.
  destruct args as [|a [|b rest]]; [| |cbn in Hn; lia];
    destruct Hop as [->|[->|[->|[->|[->|[]]]]]]; reflexivity.
Qed.

(** Operands after the second do not reach the operation. *)
Lemma outcome_binary_extra op a b rest :
  op ∈ binary_symbols -> outcome ops op (a :: b :: rest) = outcome ops op [a; b].
Proof.
  intros Hop. unfold binary_symbols in Hop.
  rewrite !elem_of_cons, elem_of_nil in Hop.
  destruct Hop as [->|[->|[->|[->|[->|[]]]]]]; reflexivity.
Qed.

End Dispatch.

(** The object a call leaves behind, by the call's result. *)
Lemma calculate_leaves (op : string) (args : list number) (self self' : instance)
    (r : Py.result value) :
  calculate op args self = (r, self') ->
  self' = match r with
          | Ok v => appended self (record_of op args v)
          | Raise _ => self
          end.
Proof.
  rewrite calculate_outcome.
  destruct (outcome (operations self) op args); intros [= <- <-]; reflexivity.
Qed.

(** ** The history *)

(** C2: whatever the reason a call to [calculate] fails (unknown
    operation, wrong operand count, division by zero, negative square-root
    argument, non-positive logarithm argument or base, or anything else an
    operation raises), the history after the call is the history before
    it; a call that returns appends exactly one record, so only successful
    calls append. *)
Theorem failed_call_keeps_history (op : string) (args : list number) (self : instance) :
  match calculate op args self with
  | (Raise e, self') => history self' = history self
  | (Ok v, self') => history self' = history self ++ [record_of op args v]
  end.
Proof.
  rewrite calculate_outcome.
  destruct (outcome (operations self) op args); reflexivity.
Qed.

(** C6: for every operation symbol outside the seven of the constructor's
    dictionary, [calculate] raises [ValueError("Unknown operation: ...")]
    whatever the operands are, none or any number of them: the look-up
    comes before every operand-count check.  The object is left as it
    was. *)
Theorem unknown_operation_rejected (L : libm) (h : list Calculation)
    (op : string) (args : list number) :
  op ∉ symbols ->
  calculate op args (with_history L h) =
    (Raise (ValueError ("Unknown operation: " +:+ op)), with_history L h).
Proof.
  intros Hop. rewrite calculate_with_history, outcome_unknown by assumption.
  reflexivity.
Qed.

Lemma unknown_operation_rejected_witness :
  calculate "foo" [Int 1; Int 2] (with_history table_libm []) =
    (Raise (ValueError "Unknown operation: foo"), with_history table_libm []).
Proof.
  apply (unknown_operation_rejected table_libm [] "foo" [Int 1; Int 2]).
  unfold symbols. rewrite !not_elem_of_cons.
  repeat split; solve [discriminate | apply not_elem_of_nil].
Defined.

(** C9: in every state, [clear_history()] leaves an empty history, which
    [get_history()] then returns, and the same dictionary of operations; a
    call to [calculate] that succeeds next appends exactly one record, so
    the history has length 1. *)
Theorem clear_history_then_one (self : instance) :
  let cleared := snd (clear_history self) in
  fst (clear_history self) = Ok tt /\
  history cleared = [] /\
  fst (get_history cleared) = Ok [] /\
  operations cleared = operations self /\
  forall op args v self',
    calculate op args cleared = (Ok v, self') ->
    history self' = [record_of op args v] /\ length (history self') = 1%nat.
Proof.
  intros cleared. subst cleared. unfold clear_history, get_history.
  cbn [fst snd history operations].
  do 4 (split; [reflexivity|]).
  intros op args v self' Hcall.
  apply calculate_leaves in Hcall. subst self'. split; reflexivity.
Qed.

(** C10: every record [calculate] appends carries the same timestamp, the
    JSON text of [{"time": "now"}], whatever the operation, the operands
    and the moment of the call; hence in every history a program can
    build, all timestamps are that text and any two of them are equal. *)
Theorem timestamps_are_constant (L : libm) (self : instance) :
  reachable L self ->
  (forall c, c ∈ history self -> timestamp c = time_now) /\
  (forall c1 c2, c1 ∈ history self -> c2 ∈ history self ->
     timestamp c1 = timestamp c2) /\
  (forall op args v self',
     calculate op args self = (Ok v, self') ->
     exists c, history self' = history self ++ [c] /\ timestamp c = time_now).
Proof.
  intros Hreach.
  assert (Hall : forall c, c ∈ history self -> timestamp c = time_now).
  { induction Hreach as [|self op args _ IH|self _ IH|self _ IH].
    - intros c Hc. cbn in Hc. apply elem_of_nil in Hc. destruct Hc.
    - intros c.
      destruct (calculate op args self) as [r self'] eqn:Hcall.
      apply calculate_leaves in Hcall. subst self'. cbn [snd].
      destruct r as [v|e]; [|apply IH].
      cbn [appended history]. rewrite elem_of_app, list_elem_of_singleton.
      intros [Hc| ->]; [apply IH, Hc | reflexivity].
    - exact IH.
    - intros c Hc. cbn in Hc. apply elem_of_nil in Hc. destruct Hc. }
  split; [exact Hall|]. split.
  - intros c1 c2 H1 H2. rewrite (Hall c1 H1), (Hall c2 H2). reflexivity.
  - intros op args v self' Hcall.
    apply calculate_leaves in Hcall. subst self'.
    exists (record_of op args v). split; reflexivity.
Qed.

Lemma timestamps_are_constant_witness :
  let self := snd (calculate "+" [Int 2; Int 3] (__init__ table_libm)) in
  (forall c, c ∈ history self -> timestamp c = time_now) /\
  (forall c1 c2, c1 ∈ history self -> c2 ∈ history self ->
     timestamp c1 = timestamp c2) /\
  (forall op args v self',
     calculate op args self = (Ok v, self') ->
     exists c, history self' = history self ++ [c] /\ timestamp c = time_now).
Proof.
  apply (timestamps_are_constant table_libm).
  apply reachable_calculate, reachable_init.
Defined.

(** ** Comparisons of floats with zero *)

Lemma float_gt_zero_not_le (f : float) :
  (0 <? f)%float = true -> (f <=? 0)%float = false.
Proof.
  rewrite FloatAxioms.ltb_spec, FloatAxioms.leb_spec.
  change (Prim2SF 0) with (S754_zero false).
  destruct (Prim2SF f) as [s|s| |s m e]; try destruct s; cbn; congruence.
Qed.

Lemma float_lt_zero_le (f : float) :
  (f <? 0)%float = true -> (f <=? 0)%float = true.
Proof.
  rewrite FloatAxioms.ltb_spec, FloatAxioms.leb_spec.
  change (Prim2SF 0) with (S754_zero false).
  destruct (Prim2SF f) as [s|s| |s m e]; try destruct s; cbn; congruence.
Qed.

Lemma gt_zero_not_le (n : number) : gt_zero n = true -> le_zero n = false.
Proof.
  destruct n as [z|f]; cbn.
  - intros Hz. apply Z.ltb_lt in Hz. apply Z.leb_gt. exact Hz.
  - apply float_gt_zero_not_le.
Qed.

(** ** Division *)

(** Two floats always have a quotient when the divisor is not zero. *)
Lemma truediv_floats (x y : float) :
  (y =? 0)%float = false -> truediv (Float x) (Float y) = Ok (Float (x / y)).
Proof. intros Hy. cbn. unfold float_div. rewrite Hy. reflexivity. Qed.

(** On floats, the annotated operand type, a non-zero divisor is all it
    takes. *)
Lemma divide_floats (x y : float) :
  (y =? 0)%float = false -> divide (Float x) (Float y) = Ok (Num (Float (x / y))).
Proof.
  intros Hy. unfold divide. cbn [eq_zero]. rewrite Hy, truediv_floats by assumption.
  reflexivity.
Qed.

(** A zero divisor is refused before Python's [/] is reached. *)
Lemma divide_by_zero_rejected (L : libm) (h : list Calculation) (a b : number) :
  eq_zero b = true ->
  calculate "/" [a; b] (with_history L h) =
    (Raise (ValueError "Cannot divide by zero"), with_history L h).
Proof.
  intros Hb. rewrite calculate_with_history, outcome_divide.
  unfold divide. rewrite Hb. reflexivity.
Qed.

(** C1, as amended: for every [int] or [float] [a] and [b] with [b != 0]
    whose quotient [a / b] Python can form (two floats always have one, see
    [truediv_floats]; with an [int] involved, [/] raises [OverflowError]
    when the [int] or the quotient is beyond the floats),
    [calculate('/', a, b)] returns [a / b] and appends exactly one record,
    whose operands are [[a, b]]. *)
Theorem divide_returns_quotient (L : libm) (h : list Calculation) (a b q : number) :
  eq_zero b = false ->
  truediv a b = Ok q ->
  calculate "/" [a; b] (with_history L h) =
    (Ok (Num q),
     with_history L
       (h ++ [{| operation := "/"; operands := [a; b]; result := Num q;
                 timestamp := time_now |}])).
Proof.
  intros Hb Hq. rewrite calculate_with_history, outcome_divide.
  unfold divide. rewrite Hb, Hq. reflexivity.
Qed.

Lemma divide_returns_quotient_witness :
  calculate "/" [Int 15; Int 3] (with_history table_libm []) =
    (Ok (Num (Float 5)),
     with_history table_libm
       ([] ++ [{| operation := "/"; operands := [Int 15; Int 3];
                  result := Num (Float 5); timestamp := time_now |}])).
Proof.
  apply (divide_returns_quotient table_libm [] (Int 15) (Int 3) (Float 5));
    reflexivity.
Defined.

(** C1 as stated fails: [2 ** 1024] is an [int], [1] is not zero, and
    [calculate('/', 2 ** 1024, 1)] raises [OverflowError] (integer division
    result too large for a float) instead of returning; nothing is
    appended. *)
Lemma divide_huge_int_raises :
  eq_zero (Int 1) = false /\
  calculate "/" [Int (2 ^ 1024); Int 1] (__init__ table_libm) =
    (Raise OverflowError, __init__ table_libm).
Proof.
  split; [reflexivity|].
  rewrite init_with_history, calculate_with_history, outcome_divide.
  assert (Hd : divide (Int (2 ^ 1024)) (Int 1) = Raise OverflowError)
    by (vm_compute; reflexivity).
  rewrite Hd. reflexivity.
Qed.

(** ** Exponentiation *)

(** C7, as amended: [calculate('**', a, b)] checks nothing of its own: it
    succeeds exactly when Python's [a ** b] does, returns that value and
    appends one record, and fails with Python's error, the history
    unchanged, otherwise.  For [int] operands with [b >= 0] it always
    succeeds, with the exact integer power. *)
Theorem power_follows_python (L : libm) (h : list Calculation) :
  (forall a b,
     calculate "**" [a; b] (with_history L h) =
       match Py.pow L a b with
       | Ok v =>
           (Ok v,
            with_history L
              (h ++ [{| operation := "**"; operands := [a; b]; result := v;
                        timestamp := time_now |}]))
       | Raise e => (Raise e, with_history L h)
       end) /\
  (forall x y : Z,
     0 <= y ->
     calculate "**" [Int x; Int y] (with_history L h) =
       (Ok (Num (Int (x ^ y))),
        with_history L
          (h ++ [{| operation := "**"; operands := [Int x; Int y];
                    result := Num (Int (x ^ y)); timestamp := time_now |}]))).
Proof.
  assert (Hgen : forall a b,
    calculate "**" [a; b] (with_history L h) =
      match Py.pow L a b with
      | Ok v =>
          (Ok v,
           with_history L
             (h ++ [{| operation := "**"; operands := [a; b]; result := v;
                       timestamp := time_now |}]))
      | Raise e => (Raise e, with_history L h)
      end).
  { intros a b. rewrite calculate_with_history, outcome_power.
    unfold power. destruct (Py.pow L a b); reflexivity. }
  split; [exact Hgen|].
  intros x y Hy. rewrite Hgen. cbn [Py.pow].
  apply Z.leb_le in Hy. rewrite Hy. reflexivity.
Qed.

Lemma power_follows_python_witness :
  calculate "**" [Int 2; Int 8] (with_history table_libm []) =
    (Ok (Num (Int 256)),
     with_history table_libm
       ([] ++ [{| operation := "**"; operands := [Int 2; Int 8];
                  result := Num (Int 256); timestamp := time_now |}])).
Proof.
  apply (proj2 (power_follows_python table_libm []) 2 8). discriminate.
Defined.

(** C7 as stated fails: [calculate('**', 0, -1)] raises
    [ZeroDivisionError] (0.0 cannot be raised to a negative power) and
    appends nothing. *)
Lemma power_zero_negative_raises :
  calculate "**" [Int 0; Int (-1)] (__init__ table_libm) =
    (Raise ZeroDivisionError, __init__ table_libm).
Proof.
  rewrite init_with_history, calculate_with_history, outcome_power.
  assert (Hp : power table_libm (Int 0) (Int (-1)) = Raise ZeroDivisionError)
    by (vm_compute; reflexivity).
  rewrite Hp. reflexivity.
Qed.

(** The same for every C library, and with floats. *)
Lemma power_zero_negative_raises_any (L : libm) (h : list Calculation) :
  calculate "**" [Int 0; Int (-1)] (with_history L h) =
    (Raise ZeroDivisionError, with_history L h) /\
  calculate "**" [Float 0; Float (-1)] (with_history L h) =
    (Raise ZeroDivisionError, with_history L h).
Proof.
  split; rewrite calculate_with_history, outcome_power; reflexivity.
Qed.

(** ** Operand counts *)

(** C5: [calculate] enforces the operand counts.  ['sqrt'] with any number
    of operands other than 1, and ['log'] with any number other than 1 or
    2, fail with the "requires 1-2 operands" error; each of [+ - * / **]
    with fewer than 2 operands fails with the "requires at least 2
    operands" error; with more than 2, the call does what the call with
    the first two operands alone does, and the record it appends on success
    holds all the operands that were passed. *)
Theorem operand_counts_enforced (L : libm) (h : list Calculation) :
  (forall args,
     length args <> 1%nat ->
     calculate "sqrt" args (with_history L h) =
       (Raise (ValueError "Operation sqrt requires 1-2 operands"), with_history L h)) /\
  (forall args,
     length args <> 1%nat -> length args <> 2%nat ->
     calculate "log" args (with_history L h) =
       (Raise (ValueError "Operation log requires 1-2 operands"), with_history L h)) /\
  (forall op args,
     op ∈ binary_symbols -> (length args < 2)%nat ->
     calculate op args (with_history L h) =
       (Raise (ValueError ("Operation " +:+ op +:+ " requires at least 2 operands")),
        with_history L h)) /\
  (forall op a b rest,
     op ∈ binary_symbols ->
     calculate op (a :: b :: rest) (with_history L h) =
       match fst (calculate op [a; b] (with_history L h)) with
       | Ok v =>
           (Ok v,
            with_history L
              (h ++ [{| operation := op; operands := a :: b :: rest; result := v;
                        timestamp := time_now |}]))
       | Raise e => (Raise e, with_history L h)
       end).
Proof.
  repeat split.
  - intros args Hn.
    rewrite calculate_with_history, outcome_sqrt_count by assumption. reflexivity.
  - intros args H1 H2.
    rewrite calculate_with_history, outcome_log_count by assumption. reflexivity.
  - intros op args Hop Hn.
    rewrite calculate_with_history, outcome_binary_count by assumption. reflexivity.
  - intros op a b rest Hop.
    rewrite !calculate_with_history, outcome_binary_extra by assumption.
    destruct (outcome _ op [a; b]); reflexivity.
Qed.

Lemma operand_counts_enforced_witness :
  calculate "+" [Int 1; Int 2; Int 3] (with_history table_libm []) =
    match fst (calculate "+" [Int 1; Int 2] (with_history table_libm [])) with
    | Ok v =>
        (Ok v,
         with_history table_libm
           ([] ++ [{| operation := "+"; operands := [Int 1; Int 2; Int 3]; result := v;
                      timestamp := time_now |}]))
    | Raise e => (Raise e, with_history table_libm [])
    end.
Proof.
  apply (proj2 (proj2 (proj2 (operand_counts_enforced table_libm [])))
           "+" (Int 1) (Int 2) [Int 3]).
  unfold binary_symbols. apply elem_of_cons. left. reflexivity.
Defined.

(** The extra operand is recorded and not used: 1 + 2 with a third
    operand is 3. *)
Example add_three_operands :
  fst (calculate "+" [Int 1; Int 2; Int 3] (with_history table_libm [])) = Ok (Num (Int 3)) /\
  history (snd (calculate "+" [Int 1; Int 2; Int 3] (with_history table_libm []))) =
    [{| operation := "+"; operands := [Int 1; Int 2; Int 3]; result := Num (Int 3);
        timestamp := time_now |}].
Proof.
  rewrite calculate_with_history, outcome_add. split; reflexivity.
Qed.

(** ** Square root *)

(** A negative argument is refused. *)
Lemma sqrt_negative_rejected (L : libm) (h : list Calculation) (a : number) :
  lt_zero a = true ->
  calculate "sqrt" [a] (with_history L h) =
    (Raise (ValueError "Cannot calculate square root of negative number"),
     with_history L h).
Proof.
  intros Ha. rewrite calculate_with_history, outcome_sqrt.
  unfold Calculator.sqrt. rewrite Ha. reflexivity.
Qed.

(** The rounding of SpecFloat keeps a mantissa that is not negative so,
    hence the square root of a float that is not negative is one too. *)
Lemma shr_1_nonneg (mrs : shr_record) : 0 <= shr_m mrs -> 0 <= shr_m (shr_1 mrs).
Proof.
  destruct mrs as [m r s]. cbn [shr_m]. intros Hm.
  destruct m as [|p|p]; [| |lia]; cbn; try lia.
  destruct p; cbn; lia.
Qed.

Lemma iter_pos_invariant {A : Type} (P : A -> Prop) (f : A -> A) :
  (forall x, P x -> P (f x)) -> forall p x, P x -> P (SpecFloat.iter_pos f p x).
Proof.
  intros Hf. induction p as [p IH|p IH|]; intros x Hx; cbn; auto.
Qed.

Lemma shr_nonneg (mrs : shr_record) (e n : Z) :
  0 <= shr_m mrs -> 0 <= shr_m (fst (shr mrs e n)).
Proof.
  intros Hm. destruct n as [|p|p]; cbn; try assumption.
  apply (iter_pos_invariant (fun r => 0 <= shr_m r)); [apply shr_1_nonneg | assumption].
Qed.

Lemma shr_fexp_nonneg (m e : Z) (l : location) :
  0 <= m -> 0 <= shr_m (fst (shr_fexp prec emax m e l)).
Proof.
  intros Hm. unfold shr_fexp. apply shr_nonneg.
  destruct l as [|[ | | ]]; exact Hm.
Qed.

Lemma round_nearest_even_nonneg (m : Z) (l : location) :
  0 <= m -> 0 <= round_nearest_even m l.
Proof.
  intros Hm. destruct l as [|[ | | ]]; cbn; try lia.
  destruct (Z.even m); lia.
Qed.

Lemma binary_round_aux_nonneg (m e : Z) (l : location) :
  0 <= m -> nonneg_sf (binary_round_aux prec emax false m e l).
Proof.
  intros Hm. unfold binary_round_aux.
  pose proof (shr_fexp_nonneg m e l Hm) as H1.
  destruct (shr_fexp prec emax m e l) as [mrs' e']. cbn [fst] in H1.
  pose proof (shr_fexp_nonneg _ e' loc_Exact
    (round_nearest_even_nonneg _ (loc_of_shr_record mrs') H1)) as H2.
  destruct (shr_fexp prec emax _ e' loc_Exact) as [mrs'' e'']. cbn [fst] in H2.
  destruct (shr_m mrs'') as [|p|p]; [exact I| |lia].
  destruct (e'' <=? emax - prec); reflexivity.
Qed.

Lemma SFsqrt_nonneg (m : positive) (e : Z) :
  nonneg_sf (SFsqrt prec emax (S754_finite false m e)).
Proof.
  unfold SFsqrt.
  destruct (SFsqrt_core_binary prec emax (Z.pos m) e) as [[q e'] l] eqn:Hcore.
  apply binary_round_aux_nonneg.
  unfold SFsqrt_core_binary in Hcore.
  match type of Hcore with context [Z.sqrtrem ?a] =>
    pose proof (Z.sqrtrem_sqrt a) as Hq; destruct (Z.sqrtrem a) as [q' r'] end.
  cbn [fst] in Hq. injection Hcore as <- _ _. subst q'. apply Z.sqrt_nonneg.
Qed.

Lemma SFeqb_finite_refl (s : bool) (m : positive) (e : Z) :
  SFeqb (S754_finite s m e) (S754_finite s m e) = true.
Proof.
  unfold SFeqb, SFcompare. rewrite Z.compare_refl, Pos.compare_cont_refl.
  destruct s; reflexivity.
Qed.

(** [math.sqrt] of a float that is a number and not below zero is a number
    and not below zero. *)
Lemma float_sqrt_nonneg (x : float) :
  (x <? 0)%float = false -> is_nan x = false ->
  (0 <=? PrimFloat.sqrt x)%float = true /\ is_nan (PrimFloat.sqrt x) = false.
Proof.
  unfold is_nan.
  rewrite !FloatAxioms.leb_spec, !FloatAxioms.ltb_spec, !FloatAxioms.eqb_spec, sqrt_spec.
  change (Prim2SF 0) with (S754_zero false). unfold SF64sqrt.
  destruct (Prim2SF x) as [s|s| |s m e].
  - intros _ _. split; reflexivity.
  - destruct s; cbn; [discriminate|]. intros _ _. split; reflexivity.
  - cbn. discriminate.
  - destruct s; [cbn; discriminate|]. intros _ _.
    pose proof (SFsqrt_nonneg m e) as Hs.
    destruct (SFsqrt prec emax (S754_finite false m e)) as [s|s| |s m' e'];
      cbn in Hs; try contradiction; subst.
    + split; reflexivity.
    + split; reflexivity.
    + split; [reflexivity|]. rewrite SFeqb_finite_refl. reflexivity.
Qed.

(** A float that is not negative (and is a number) has a square root:
    [calculate('sqrt', a)] returns it and appends one record. *)
Lemma sqrt_returns_root (L : libm) (h : list Calculation) (x : float) :
  (x <? 0)%float = false -> is_nan x = false ->
  calculate "sqrt" [Float x] (with_history L h) =
    (Ok (Num (Float (PrimFloat.sqrt x))),
     with_history L
       (h ++ [{| operation := "sqrt"; operands := [Float x];
                 result := Num (Float (PrimFloat.sqrt x)); timestamp := time_now |}])).
Proof.
  intros Hx Hnan. rewrite calculate_with_history, outcome_sqrt.
  unfold Calculator.sqrt. cbn [lt_zero]. rewrite Hx.
  unfold math_sqrt. cbn [as_double Py.bind Py.map].
  destruct (float_sqrt_nonneg x Hx Hnan) as [_ Hr].
  rewrite Hr. reflexivity.
Qed.

(** ** Logarithm *)

(** The natural logarithm [math.log] takes of a finite positive float is
    the C library's, when that is finite. *)
Lemma loghelper_float (L : libm) (x : float) :
  is_finite x = true -> (0 <? x)%float = true -> is_finite (c_log L x) = true ->
  loghelper L (Float x) = Ok (c_log L x).
Proof.
  intros Hx Hpos Hr. unfold loghelper, m_log. rewrite Hx, Hpos.
  unfold is_finite in Hr. apply negb_true_iff, orb_false_iff in Hr.
  destruct Hr as [Hnan Hinf]. rewrite Hnan, Hinf. reflexivity.
Qed.

(** A positive [int] always has one. *)
Lemma loghelper_int (L : libm) (z : Z) :
  0 < z -> exists n, loghelper L (Int z) = Ok n.
Proof.
  intros Hz. unfold loghelper.
  apply Z.leb_gt in Hz. rewrite Hz.
  destruct (long_as_double z); [eauto|].
  destruct (long_frexp z). eauto.
Qed.

(** A non-positive argument or base is refused. *)
Lemma log_nonpositive_rejected (L : libm) (h : list Calculation) (a base : number) :
  le_zero a = true \/ le_zero base = true ->
  calculate "log" [a; base] (with_history L h) =
    (Raise (ValueError "Invalid arguments for logarithm"), with_history L h).
Proof.
  intros Hle. rewrite calculate_with_history, outcome_log2. unfold log.
  destruct Hle as [-> | ->]; [|rewrite orb_true_r]; reflexivity.
Qed.

(** With base 1 the logarithm of the base is zero and the quotient is a
    division by zero, whatever the positive [int] argument. *)
Lemma log_base_one_raises_any (L : libm) (h : list Calculation) (z : Z) :
  c_log L 1 = 0%float -> 0 < z ->
  calculate "log" [Int z; Int 1] (with_history L h) =
    (Raise ZeroDivisionError, with_history L h).
Proof.
  intros Hone Hz. rewrite calculate_with_history, outcome_log2. unfold log.
  assert (Hle : le_zero (Int z) = false) by (apply Z.leb_gt; exact Hz).
  rewrite Hle. cbn [le_zero orb Z.leb Z.compare].
  unfold math_log. destruct (loghelper_int L z Hz) as [n ->].
  assert (Hden : loghelper L (Int 1) = Ok (c_log L 1)) by reflexivity.
  rewrite Hden, Hone. reflexivity.
Qed.

(** C3, as amended: for every [a > 0] and [base > 0] whose natural
    logarithms [math.log] can take, that of the base not being zero (it is
    zero for base 1), [calculate('log', a, base)] returns the quotient of
    the logarithm of [a] by the logarithm of [base] and appends one record;
    [calculate('log', a)] does what [calculate('log', a, 10)] does and
    records the one operand; and whenever [a <= 0] or [base <= 0] the call
    fails with [ValueError("Invalid arguments for logarithm")] and appends
    nothing. *)
Theorem log_contract (L : libm) (h : list Calculation) :
  (forall a base n d,
     gt_zero a = true -> gt_zero base = true ->
     loghelper L a = Ok n -> loghelper L base = Ok d ->
     (d =? 0)%float = false ->
     calculate "log" [a; base] (with_history L h) =
       (Ok (Num (Float (n / d))),
        with_history L
          (h ++ [{| operation := "log"; operands := [a; base];
                    result := Num (Float (n / d)); timestamp := time_now |}]))) /\
  (forall a,
     calculate "log" [a] (with_history L h) =
       match fst (calculate "log" [a; Int 10] (with_history L h)) with
       | Ok v =>
           (Ok v,
            with_history L
              (h ++ [{| operation := "log"; operands := [a]; result := v;
                        timestamp := time_now |}]))
       | Raise e => (Raise e, with_history L h)
       end) /\
  (forall a base,
     le_zero a = true \/ le_zero base = true ->
     calculate "log" [a; base] (with_history L h) =
       (Raise (ValueError "Invalid arguments for logarithm"), with_history L h)).
Proof.
  split; [|split].
  - intros a base n d Ha Hbase Hn Hd Hnz.
    rewrite calculate_with_history, outcome_log2. unfold log.
    rewrite (gt_zero_not_le a Ha), (gt_zero_not_le base Hbase). cbn [orb].
    unfold math_log. rewrite Hn, Hd. cbn [Py.bind Py.map].
    unfold float_div. rewrite Hnz. reflexivity.
  - intros a. rewrite !calculate_with_history, outcome_log1, outcome_log2.
    destruct (log L a (Int 10)); reflexivity.
  - intros a base. apply log_nonpositive_rejected.
Qed.

Lemma log_contract_witness :
  calculate "log" [Int 100; Int 10] (with_history table_libm []) =
    (Ok (Num (Float 2)),
     with_history table_libm
       ([] ++ [{| operation := "log"; operands := [Int 100; Int 10];
                  result := Num (Float 2); timestamp := time_now |}])).
Proof.
  exact (proj1 (log_contract table_libm []) (Int 100) (Int 10)
           0x1.26bb1bbb55516p+2%float 0x1.26bb1bbb55516p+1%float
           eq_refl eq_refl eq_refl eq_refl eq_refl).
Defined.

(** C3 as stated fails: 100 and 1 are both positive, and
    [calculate('log', 100, 1)] raises [ZeroDivisionError] (float division
    by zero) instead of returning a logarithm; nothing is appended. *)
Lemma log_base_one_raises :
  gt_zero (Int 100) = true /\ gt_zero (Int 1) = true /\
  calculate "log" [Int 100; Int 1] (__init__ table_libm) =
    (Raise ZeroDivisionError, __init__ table_libm).
Proof.
  split; [reflexivity|]. split; [reflexivity|].
  rewrite init_with_history.
  apply (log_base_one_raises_any table_libm [] 100); reflexivity.
Qed.

(** ** The calls of [main] *)

(** C8: on a new calculator, with a C library whose [log] gives the
    correctly rounded logarithms of 10 and 100 (2.302585092994046 and
    4.605170185988092), the calls [calculate('+', 2, 3)],
    [calculate('-', 10, 4)], [calculate('*', 5, 6)], [calculate('/', 15, 3)],
    [calculate('**', 2, 8)], [calculate('sqrt', 16)] and
    [calculate('log', 100)] return 5, 6, 30, 5.0, 256, 4.0 and 2.0, each
    appends one record, and [get_history] then returns the seven records
    in call order. *)
Theorem main_scenario (L : libm) :
  c_log L 100 = 0x1.26bb1bbb55516p+2%float ->
  c_log L 10 = 0x1.26bb1bbb55516p+1%float ->
  main_calls (__init__ L) =
    (Ok [Num (Int 5); Num (Int 6); Num (Int 30); Num (Float 5);
         Num (Int 256); Num (Float 4); Num (Float 2)],
     with_history L main_history) /\
  get_history (with_history L main_history) =
    (Ok main_history, with_history L main_history) /\
  List.map operation main_history = ["+"; "-"; "*"; "/"; "**"; "sqrt"; "log"] /\
  length main_history = 7%nat.
Proof.
  intros H100 H10.
  assert (Hlog : log L (Int 100) (Int 10) = Ok (Num (Float 2))).
  { unfold log. cbn [le_zero orb Z.leb Z.compare]. unfold math_log.
    assert (Hn : loghelper L (Int 100) = Ok (c_log L 100)) by reflexivity.
    assert (Hd : loghelper L (Int 10) = Ok (c_log L 10)) by reflexivity.
    rewrite Hn, Hd, H100, H10. reflexivity. }
  split; [|repeat split].
  unfold main_calls, seq. rewrite init_with_history.
  rewrite calculate_with_history, outcome_add.
  change (add (Int 2) (Int 3)) with (@Ok value (Num (Int 5))). cbv iota.
  rewrite calculate_with_history, outcome_subtract.
  change (subtract (Int 10) (Int 4)) with (@Ok value (Num (Int 6))). cbv iota.
  rewrite calculate_with_history, outcome_multiply.
  change (multiply (Int 5) (Int 6)) with (@Ok value (Num (Int 30))). cbv iota.
  rewrite calculate_with_history, outcome_divide.
  change (divide (Int 15) (Int 3)) with (@Ok value (Num (Float 5))). cbv iota.
  rewrite calculate_with_history, outcome_power.
  change (power L (Int 2) (Int 8)) with (@Ok value (Num (Int 256))). cbv iota.
  rewrite calculate_with_history, outcome_sqrt.
  change (Calculator.sqrt (Int 16)) with (@Ok value (Num (Float 4))). cbv iota.
  rewrite calculate_with_history, outcome_log1, Hlog.
  reflexivity.
Qed.

Lemma main_scenario_witness :
  main_calls (__init__ table_libm) =
    (Ok [Num (Int 5); Num (Int 6); Num (Int 30); Num (Float 5);
         Num (Int 256); Num (Float 4); Num (Float 2)],
     with_history table_libm main_history) /\
  get_history (with_history table_libm main_history) =
    (Ok main_history, with_history table_libm main_history) /\
  List.map operation main_history = ["+"; "-"; "*"; "/"; "**"; "sqrt"; "log"] /\
  length main_history = 7%nat.
Proof.
  apply (main_scenario table_libm); reflexivity.
Defined.

(** Membership in a list that is written out. *)
Ltac in_list :=
  unfold binary_symbols, symbols;
  repeat (apply elem_of_cons; first [left; reflexivity | right]).

(** ** From [int] to [float]

    [float_of_Z] rounds with SpecFloat's [binary_normalize]; what follows
    shows that the result is a float of the binary64 format, so that the
    kernel's float is the one SpecFloat describes, and that a non-zero
    [int] never becomes zero. *)

Lemma digits2_pos_log2 (m : positive) : Z.pos (digits2_pos m) = Z.log2 (Z.pos m) + 1.
Proof.
  induction m as [m IH|m IH|]; cbn [digits2_pos]; try reflexivity.
  - rewrite Pos2Z.inj_succ, IH.
    change (Z.pos m~1) with (2 * Z.pos m + 1). rewrite Z.log2_succ_double by lia. lia.
  - rewrite Pos2Z.inj_succ, IH.
    change (Z.pos m~0) with (2 * Z.pos m). rewrite Z.log2_double by lia. lia.
Qed.

Lemma Zdigits2_log2 (m : Z) : 0 < m -> Zdigits2 m = Z.log2 m + 1.
Proof. destruct m as [|p|p]; try lia. intros _. apply digits2_pos_log2. Qed.

Lemma shr_1_m (mrs : shr_record) : 0 <= shr_m mrs -> shr_m (shr_1 mrs) = Z.div2 (shr_m mrs).
Proof.
  destruct mrs as [m r s]. cbn [shr_m]. intros Hm.
  destruct m as [|p|p]; [reflexivity| |lia]. destruct p; reflexivity.
Qed.

Lemma iter_pos_shr_1_m (p : positive) (mrs : shr_record) :
  0 <= shr_m mrs -> shr_m (SpecFloat.iter_pos shr_1 p mrs) = Z.shiftr (shr_m mrs) (Z.pos p).
Proof.
  revert mrs. induction p as [p IH|p IH|]; intros mrs Hm; cbn [SpecFloat.iter_pos].
  - assert (H1 : 0 <= shr_m (shr_1 mrs)) by (rewrite shr_1_m by assumption; apply Z.div2_nonneg; assumption).
    assert (H2 : 0 <= shr_m (SpecFloat.iter_pos shr_1 p (shr_1 mrs))).
    { rewrite IH by assumption. apply Z.shiftr_nonneg. assumption. }
    rewrite IH, IH, shr_1_m by assumption.
    rewrite Z.div2_spec, !Z.shiftr_shiftr by lia. f_equal. lia.
  - assert (H2 : 0 <= shr_m (SpecFloat.iter_pos shr_1 p mrs)).
    { rewrite IH by assumption. apply Z.shiftr_nonneg. assumption. }
    rewrite IH, IH by assumption. rewrite Z.shiftr_shiftr by lia. f_equal. lia.
  - rewrite shr_1_m by assumption. apply Z.div2_spec.
Qed.

(** [shr] shifts the mantissa right and raises the exponent as much. *)
Lemma shr_m_e (mrs : shr_record) (e n : Z) :
  0 <= shr_m mrs ->
  shr_m (fst (shr mrs e n)) = Z.shiftr (shr_m mrs) (Z.max 0 n) /\
  snd (shr mrs e n) = e + Z.max 0 n.
Proof.
  intros Hm. destruct n as [|p|p]; cbn [shr fst snd].
  - rewrite Z.shiftr_0_r. split; [reflexivity|lia].
  - rewrite iter_pos_shr_1_m by assumption. rewrite Z.max_r by lia. split; reflexivity.
  - rewrite Z.max_l by lia. rewrite Z.shiftr_0_r. split; [reflexivity|lia].
Qed.

Lemma shr_record_of_loc_m (m : Z) (l : location) : shr_m (shr_record_of_loc m l) = m.
Proof. destruct l as [|[ | | ]]; reflexivity. Qed.

Lemma shr_fexp_m_e (m e : Z) (l : location) :
  0 <= m ->
  let n := Z.max 0 (fexp prec emax (Zdigits2 m + e) - e) in
  shr_m (fst (shr_fexp prec emax m e l)) = Z.shiftr m n /\
  snd (shr_fexp prec emax m e l) = e + n.
Proof.
  intros Hm n. unfold shr_fexp.
  pose proof (shr_m_e (shr_record_of_loc m l) e (fexp prec emax (Zdigits2 m + e) - e)) as H.
  rewrite shr_record_of_loc_m in H. apply H. assumption.
Qed.

Lemma log2_shiftr_pos (m n : Z) : 0 <= n -> 0 < Z.shiftr m n -> Z.log2 (Z.shiftr m n) = Z.log2 m - n.
Proof.
  intros Hn Hpos.
  assert (Hm : 0 < m).
  { destruct (Z.lt_trichotomy m 0) as [H|[H|H]]; [|subst; rewrite Z.shiftr_0_l in Hpos; lia|assumption].
    pose proof (proj2 (Z.shiftr_neg m n) H). lia. }
  rewrite Z.log2_shiftr by assumption.
  destruct (Z.lt_ge_cases (Z.log2 m) n) as [Hlt|Hge]; [|lia].
  exfalso. rewrite Z.shiftr_div_pow2 in Hpos by assumption.
  assert (m < 2 ^ n) by (apply Z.log2_lt_pow2; assumption).
  rewrite Z.div_small in Hpos by lia. lia.
Qed.

Lemma fexp_ge_emin (x : Z) : SpecFloat.emin prec emax <= fexp prec emax x.
Proof. unfold fexp. lia. Qed.

Lemma fexp_mono (x y : Z) : x <= y -> fexp prec emax x <= fexp prec emax y.
Proof. unfold fexp. lia. Qed.

Lemma round_nearest_even_range (m : Z) (l : location) :
  m <= round_nearest_even m l <= m + 1.
Proof.
  destruct l as [|[ | | ]]; cbn; try lia. destruct (Z.even m); lia.
Qed.

(** Rounding a mantissa whose exponent is at or below the canonical one
    gives a float of the format. *)
Lemma binary_round_aux_valid (s : bool) (m e : Z) (l : location) :
  0 < m -> e <= fexp prec emax (Zdigits2 m + e) ->
  SpecFloat.valid_binary prec emax (binary_round_aux prec emax s m e l) = true.
Proof.
  intros Hm Hn1. unfold binary_round_aux.
  destruct (shr_fexp_m_e m e l ltac:(lia)) as [HM1 He1].
  destruct (shr_fexp prec emax m e l) as [r1 e1]. cbn [fst snd] in HM1, He1.
  rewrite Z.max_r in HM1, He1 by lia.
  set (F := fexp prec emax (Zdigits2 m + e)) in *.
  assert (He1' : e1 = F) by lia. clear He1.
  assert (HM1nn : 0 <= shr_m r1) by (rewrite HM1; apply Z.shiftr_nonneg; lia).
  pose proof (round_nearest_even_range (shr_m r1) (loc_of_shr_record r1)) as HM2.
  set (M2 := round_nearest_even (shr_m r1) (loc_of_shr_record r1)) in *.
  destruct (shr_fexp_m_e M2 e1 loc_Exact ltac:(lia)) as [HM3 He2].
  destruct (shr_fexp prec emax M2 e1 loc_Exact) as [r2 e2]. cbn [fst snd] in HM3, He2.
  destruct (shr_m r2) as [|m3|m3] eqn:Hm3; try reflexivity.
  destruct (Z.leb_spec e2 (emax - prec)) as [Hle|Hgt]; [|reflexivity].
  cbn [SpecFloat.valid_binary]. unfold bounded. apply andb_true_iff. split; [|apply Z.leb_le; exact Hle].
  unfold canonical_mantissa. apply Z.eqb_eq.
  rewrite digits2_pos_log2.
  assert (HM2pos : 0 < M2).
  { destruct (Z.eq_dec M2 0) as [H0|]; [|lia]. rewrite H0, Z.shiftr_0_l in HM3. lia. }
  (* the second shift is not negative *)
  assert (Hn2 : e1 <= fexp prec emax (Zdigits2 M2 + e1)).
  { rewrite (Zdigits2_log2 M2) by assumption.
    destruct (Z.eq_dec (shr_m r1) 0) as [H0|Hne].
    - (* the first shift lost every digit: we are at emin *)
      assert (HF : F = SpecFloat.emin prec emax).
      { rewrite H0 in HM1. symmetry in HM1.
        assert (Hsmall : Z.log2 m < F - e).
        { destruct (Z.lt_ge_cases (Z.log2 m) (F - e)); [assumption|].
          exfalso. rewrite Z.shiftr_div_pow2 in HM1 by lia.
          assert (2 ^ (F - e) <= m).
          { transitivity (2 ^ Z.log2 m); [apply Z.pow_le_mono_r; lia|apply Z.log2_spec; lia]. }
          assert (0 < m / 2 ^ (F - e)); [apply Z.div_str_pos; split; [apply Z.pow_pos_nonneg|]; lia|lia]. }
        unfold F in *. rewrite (Zdigits2_log2 m) in * by assumption.
        unfold fexp, SpecFloat.emin, prec, emax in *. lia. }
      subst e1. rewrite HF. apply fexp_ge_emin.
    - assert (Hpos1 : 0 < Z.shiftr m (F - e)) by lia.
      pose proof (log2_shiftr_pos m (F - e) ltac:(lia) Hpos1) as Hlog.
      rewrite <- HM1 in Hlog.
      assert (Z.log2 (shr_m r1) <= Z.log2 M2) by (apply Z.log2_le_mono; lia).
      subst e1. transitivity (fexp prec emax (Z.log2 (shr_m r1) + 1 + F)).
      + rewrite Hlog. replace (Z.log2 m - (F - e) + 1 + F) with (Zdigits2 m + e)
          by (rewrite (Zdigits2_log2 m) by assumption; lia). fold F. lia.
      + apply fexp_mono. lia. }
  rewrite Z.max_r in HM3, He2 by lia.
  set (n2 := fexp prec emax (Zdigits2 M2 + e1) - e1) in *.
  assert (Hpos3 : 0 < Z.shiftr M2 n2) by lia.
  pose proof (log2_shiftr_pos M2 n2 ltac:(lia) Hpos3) as Hlog3.
  rewrite <- HM3 in Hlog3. rewrite Hlog3, He2.
  replace (Z.log2 M2 - n2 + 1 + (e1 + n2)) with (Zdigits2 M2 + e1)
    by (rewrite (Zdigits2_log2 M2) by assumption; lia).
  unfold n2. lia.
Qed.

Lemma log2_iter_xO (m d : positive) :
  Z.log2 (Z.pos (Pos.iter xO m d)) = Z.log2 (Z.pos m) + Z.pos d.
Proof.
  induction d as [|d IH] using Pos.peano_ind.
  - cbn [Pos.iter]. change (Z.pos m~0) with (2 * Z.pos m). rewrite Z.log2_double by lia. lia.
  - rewrite Pos.iter_succ. change (Z.pos (Pos.iter xO m d)~0) with (2 * Z.pos (Pos.iter xO m d)).
    rewrite Z.log2_double by lia. rewrite IH. lia.
Qed.

(** [shl_align] towards the canonical exponent leaves the mantissa at or
    above it. *)
Lemma shl_align_canonical (m : positive) (e : Z) :
  let '(mz, ez) := shl_align m e (fexp prec emax (Z.pos (digits2_pos m) + e)) in
  ez <= fexp prec emax (Zdigits2 (Z.pos mz) + ez) /\
  Z.log2 (Z.pos mz) + ez = Z.log2 (Z.pos m) + e.
Proof.
  unfold shl_align.
  destruct (fexp prec emax (Z.pos (digits2_pos m) + e) - e) as [|d|d] eqn:Hd.
  - split; [cbn [Zdigits2]; lia|reflexivity].
  - split; [cbn [Zdigits2]; lia|reflexivity].
  - cbn [Zdigits2]. rewrite !digits2_pos_log2 in *. rewrite log2_iter_xO.
    assert (Heq : Z.log2 (Z.pos m) + Z.pos d + 1 + fexp prec emax (Z.log2 (Z.pos m) + 1 + e)
                  = Z.log2 (Z.pos m) + 1 + e) by lia.
    rewrite Heq. split; lia.
Qed.

Lemma binary_round_valid (s : bool) (m : positive) (e : Z) :
  SpecFloat.valid_binary prec emax (binary_round prec emax s m e) = true.
Proof.
  unfold binary_round. pose proof (shl_align_canonical m e) as H.
  destruct (shl_align m e _) as [mz ez]. destruct H as [H _].
  apply binary_round_aux_valid; [lia|exact H].
Qed.

Lemma binary_normalize_valid (z e : Z) (szero : bool) :
  SpecFloat.valid_binary prec emax (binary_normalize prec emax z e szero) = true.
Proof. destruct z; [reflexivity|apply binary_round_valid..]. Qed.

Lemma binary_round_aux_nonzero (s : bool) (m e : Z) (l : location) :
  0 < m -> e <= fexp prec emax (Zdigits2 m + e) ->
  SpecFloat.emin prec emax <= Z.log2 m + e ->
  nonzero_sf s (binary_round_aux prec emax s m e l).
Proof.
  intros Hm Hn1 Hbig. unfold binary_round_aux.
  destruct (shr_fexp_m_e m e l ltac:(lia)) as [HM1 He1].
  destruct (shr_fexp prec emax m e l) as [r1 e1]. cbn [fst snd] in HM1, He1.
  rewrite Z.max_r in HM1, He1 by lia.
  rewrite (Zdigits2_log2 m) in * by assumption.
  set (F := fexp prec emax (Z.log2 m + 1 + e)) in *.
  assert (HnF : F - e <= Z.log2 m) by (unfold F, fexp, SpecFloat.emin, prec, emax in *; lia).
  assert (HM1pos : 0 < shr_m r1).
  { rewrite HM1, Z.shiftr_div_pow2 by lia. apply Z.div_str_pos. split; [apply Z.pow_pos_nonneg; lia|].
    transitivity (2 ^ Z.log2 m); [apply Z.pow_le_mono_r; lia|apply Z.log2_spec; lia]. }
  pose proof (round_nearest_even_range (shr_m r1) (loc_of_shr_record r1)) as HM2.
  set (M2 := round_nearest_even (shr_m r1) (loc_of_shr_record r1)) in *.
  destruct (shr_fexp_m_e M2 e1 loc_Exact ltac:(lia)) as [HM3 He2].
  destruct (shr_fexp prec emax M2 e1 loc_Exact) as [r2 e2]. cbn [fst snd] in HM3, He2.
  rewrite (Zdigits2_log2 M2) in * by lia.
  assert (HM3pos : 0 < shr_m r2).
  { rewrite HM3, Z.shiftr_div_pow2 by lia. apply Z.div_str_pos. split; [apply Z.pow_pos_nonneg; lia|].
    transitivity (2 ^ Z.log2 M2); [|apply Z.log2_spec; lia].
    apply Z.pow_le_mono_r; [lia|].
    pose proof (Z.log2_nonneg M2). pose proof (fexp_ge_emin (Z.log2 m + 1 + e)). fold F in H0.
    unfold fexp, SpecFloat.emin, prec, emax in *. lia. }
  destruct (shr_m r2) as [|m3|m3]; try lia.
  destruct (e2 <=? emax - prec); reflexivity.
Qed.

Lemma binary_round_nonzero (s : bool) (m : positive) (e : Z) :
  SpecFloat.emin prec emax <= Z.log2 (Z.pos m) + e ->
  nonzero_sf s (binary_round prec emax s m e).
Proof.
  intros Hbig. unfold binary_round. pose proof (shl_align_canonical m e) as H.
  destruct (shl_align m e _) as [mz ez]. destruct H as [H1 H2].
  apply binary_round_aux_nonzero; [lia|exact H1|lia].
Qed.

Lemma float_of_Z_spec (z : Z) : Prim2SF (float_of_Z z) = binary_normalize prec emax z 0 false.
Proof. apply Prim2SF_SF2Prim, binary_normalize_valid. Qed.

Lemma float_of_Z_pos (z : Z) : 0 < z -> nonzero_sf false (Prim2SF (float_of_Z z)).
Proof.
  intros Hz. rewrite float_of_Z_spec. destruct z as [|p|p]; try lia.
  apply binary_round_nonzero. pose proof (Z.log2_nonneg (Z.pos p)).
  unfold SpecFloat.emin, prec, emax. lia.
Qed.

Lemma float_of_Z_neg (z : Z) : z < 0 -> nonzero_sf true (Prim2SF (float_of_Z z)).
Proof.
  intros Hz. rewrite float_of_Z_spec. destruct z as [|p|p]; try lia.
  apply binary_round_nonzero. pose proof (Z.log2_nonneg (Z.pos p)).
  unfold SpecFloat.emin, prec, emax. lia.
Qed.

(** How a float that is not zero compares with zero. *)
Lemma nonzero_sf_compare (s : bool) (f : float) :
  nonzero_sf s (Prim2SF f) ->
  (f =? 0)%float = false /\ is_nan f = false /\
  (f <? 0)%float = s /\ (0 <? f)%float = negb s.
Proof.
  unfold is_nan.
  rewrite !FloatAxioms.eqb_spec, !FloatAxioms.ltb_spec.
  change (Prim2SF 0) with (S754_zero false).
  destruct (Prim2SF f) as [s'|s'| |s' m e]; cbn [nonzero_sf]; try contradiction;
    intros ->.
  - destruct s; repeat split; reflexivity.
  - rewrite SFeqb_finite_refl. destruct s; repeat split; reflexivity.
Qed.

Lemma float_of_Z_nonzero (z : Z) : z <> 0 -> (float_of_Z z =? 0)%float = false.
Proof.
  intros Hz. destruct (Z.lt_trichotomy z 0) as [Hlt|[Heq|Hgt]]; [|contradiction|].
  - apply (nonzero_sf_compare true), float_of_Z_neg, Hlt.
  - apply (nonzero_sf_compare false), float_of_Z_pos, Hgt.
Qed.

(** The float of an [int] that is not negative is a number and is not
    negative. *)
Lemma float_of_Z_nonneg (z : Z) :
  0 <= z -> (float_of_Z z <? 0)%float = false /\ is_nan (float_of_Z z) = false.
Proof.
  intros Hz. destruct (Z.eq_dec z 0) as [->|Hne].
  - split; reflexivity.
  - destruct (nonzero_sf_compare false (float_of_Z z)) as (_ & Hnan & Hlt & _).
    + apply float_of_Z_pos. lia.
    + split; assumption.
Qed.

(** The float of a negative [int] is negative and finite or minus
    infinity. *)
Lemma float_of_Z_negative (z : Z) :
  z < 0 ->
  (float_of_Z z <? 0)%float = true /\ (float_of_Z z =? 0)%float = false /\
  is_nan (float_of_Z z) = false.
Proof.
  intros Hz.
  destruct (nonzero_sf_compare true (float_of_Z z)) as (Hz0 & Hnan & Hlt & _).
  - apply float_of_Z_neg, Hz.
  - repeat split; assumption.
Qed.

(** ** The accuracy of the square root *)

(** What a right shift drops. *)
Lemma shiftr_bounds (m n : Z) :
  0 <= m -> 0 <= n ->
  Z.shiftr m n * 2 ^ n <= m /\ m + 1 <= (Z.shiftr m n + 1) * 2 ^ n.
Proof.
  intros Hm Hn. rewrite Z.shiftr_div_pow2 by assumption.
  assert (Hp : 0 < 2 ^ n) by (apply Z.pow_pos_nonneg; lia).
  pose proof (Z.div_mod m (2 ^ n) ltac:(lia)) as Hdm.
  pose proof (Z.mod_pos_bound m (2 ^ n) Hp) as Hmod. nia.
Qed.

(** The rounding of SpecFloat, [binary_round_aux], on a mantissa [m] at an
    exponent [e] not above the canonical one: the result is a canonical
    mantissa [M] at an exponent [e2], one unit of [e2] away from [m] at
    most, or an infinity when [e2] is beyond the format. *)
Lemma binary_round_aux_cases (s : bool) (m e : Z) (l : location) :
  0 < m -> e <= fexp prec emax (Zdigits2 m + e) ->
  SpecFloat.emin prec emax <= Z.log2 m + e ->
  exists M e2,
    0 < M /\ e <= e2 /\ fexp prec emax (Zdigits2 M + e2) = e2 /\
    (M - 1) * 2 ^ (e2 - e) <= m /\ m + 1 <= (M + 1) * 2 ^ (e2 - e) /\
    binary_round_aux prec emax s m e l =
      if e2 <=? emax - prec then S754_finite s (Z.to_pos M) e2 else S754_infinity s.
Proof.
  intros Hm Hn1 Hbig. unfold binary_round_aux.
  destruct (shr_fexp_m_e m e l ltac:(lia)) as [HM1 He1].
  destruct (shr_fexp prec emax m e l) as [r1 e1]. cbn [fst snd] in HM1, He1.
  rewrite Z.max_r in HM1, He1 by lia.
  rewrite (Zdigits2_log2 m) in * by assumption.
  set (F := fexp prec emax (Z.log2 m + 1 + e)) in *.
  set (n1 := F - e) in *.
  assert (HnF : n1 <= Z.log2 m) by (unfold n1, F, fexp, SpecFloat.emin, prec, emax in *; lia).
  destruct (shiftr_bounds m n1 ltac:(lia) ltac:(lia)) as [Hlo1 Hhi1].
  rewrite <- HM1 in Hlo1, Hhi1.
  assert (HM1pos : 0 < shr_m r1).
  { rewrite HM1, Z.shiftr_div_pow2 by lia. apply Z.div_str_pos. split; [apply Z.pow_pos_nonneg; lia|].
    transitivity (2 ^ Z.log2 m); [apply Z.pow_le_mono_r; lia|apply Z.log2_spec; lia]. }
  pose proof (log2_shiftr_pos m n1 ltac:(lia) ltac:(lia)) as Hlog1. rewrite <- HM1 in Hlog1.
  pose proof (round_nearest_even_range (shr_m r1) (loc_of_shr_record r1)) as HM2.
  set (M2 := round_nearest_even (shr_m r1) (loc_of_shr_record r1)) in *.
  destruct (shr_fexp_m_e M2 e1 loc_Exact ltac:(lia)) as [HM3 He2].
  destruct (shr_fexp prec emax M2 e1 loc_Exact) as [r2 e2]. cbn [fst snd] in HM3, He2.
  rewrite (Zdigits2_log2 M2) in * by lia.
  assert (Hlog2 : Z.log2 (shr_m r1) <= Z.log2 M2) by (apply Z.log2_le_mono; lia).
  assert (Hn2 : e1 <= fexp prec emax (Z.log2 M2 + 1 + e1)).
  { transitivity (fexp prec emax (Z.log2 (shr_m r1) + 1 + e1)); [|apply fexp_mono; lia].
    rewrite Hlog1, He1. replace (Z.log2 m - n1 + 1 + (e + n1)) with (Z.log2 m + 1 + e) by lia.
    fold F. unfold n1. lia. }
  rewrite Z.max_r in HM3, He2 by lia.
  set (n2 := fexp prec emax (Z.log2 M2 + 1 + e1) - e1) in *.
  assert (Hn2' : n2 <= Z.log2 M2).
  { pose proof (Z.log2_nonneg M2). pose proof (fexp_ge_emin (Z.log2 m + 1 + e)) as Hge.
    fold F in Hge. unfold n2, fexp, SpecFloat.emin, prec, emax in *. lia. }
  destruct (shiftr_bounds M2 n2 ltac:(lia) ltac:(lia)) as [Hlo2 Hhi2].
  rewrite <- HM3 in Hlo2, Hhi2.
  assert (HM3pos : 0 < shr_m r2).
  { rewrite HM3, Z.shiftr_div_pow2 by lia. apply Z.div_str_pos. split; [apply Z.pow_pos_nonneg; lia|].
    transitivity (2 ^ Z.log2 M2); [apply Z.pow_le_mono_r; lia|apply Z.log2_spec; lia]. }
  pose proof (log2_shiftr_pos M2 n2 ltac:(lia) ltac:(lia)) as Hlog3. rewrite <- HM3 in Hlog3.
  exists (shr_m r2), e2.
  assert (Hpow : 2 ^ (e2 - e) = 2 ^ n1 * 2 ^ n2).
  { rewrite <- Z.pow_add_r by lia. f_equal. lia. }
  assert (Hp1 : 0 < 2 ^ n1) by (apply Z.pow_pos_nonneg; lia).
  assert (Hp2 : 0 < 2 ^ n2) by (apply Z.pow_pos_nonneg; lia).
  split; [assumption|]. split; [lia|]. split.
  { rewrite (Zdigits2_log2 (shr_m r2)) by assumption. rewrite Hlog3, He2.
    replace (Z.log2 M2 - n2 + 1 + (e1 + n2)) with (Z.log2 M2 + 1 + e1) by lia.
    unfold n2. lia. }
  split; [rewrite Hpow; nia|]. split; [rewrite Hpow; nia|].
  destruct (shr_m r2) as [|m3|m3]; try lia. reflexivity.
Qed.

(** A finite float of the format has its canonical exponent. *)
Lemma valid_finite_canonical (s : bool) (m : positive) (e : Z) :
  SpecFloat.valid_binary prec emax (S754_finite s m e) = true ->
  e = fexp prec emax (Z.log2 (Z.pos m) + 1 + e) /\ e <= emax - prec.
Proof.
  cbn [SpecFloat.valid_binary]. unfold bounded, canonical_mantissa.
  rewrite andb_true_iff, Z.eqb_eq, Z.leb_le, digits2_pos_log2. intros [H1 H2].
  split; [symmetry; exact H1|exact H2].
Qed.

Lemma div2_bounds (x : Z) : 2 * Z.div2 x <= x <= 2 * Z.div2 x + 1.
Proof.
  rewrite Z.div2_div. pose proof (Z.div_mod x 2 ltac:(lia)).
  pose proof (Z.mod_pos_bound x 2 ltac:(lia)). lia.
Qed.

(** The integer square root SpecFloat takes for a positive float
    [m * 2^e]: the mantissa is scaled to 105 or 106 bits at an even
    exponent [2 * e'], so that its integer root [q] has 53 bits. *)
Lemma SFsqrt_core_cases (m : positive) (e : Z) :
  SpecFloat.valid_binary prec emax (S754_finite false m e) = true ->
  exists q e' l,
    SFsqrt_core_binary prec emax (Z.pos m) e = (q, e', l) /\
    2 * e' <= e /\ - 590 <= e' /\ 2 * e' <= emax - 2 * prec + 2 /\
    2 ^ 52 <= q < 2 ^ 53 /\
    q * q <= Z.pos m * 2 ^ (e - 2 * e') < (q + 1) * (q + 1).
Proof.
  intros Hv. destruct (valid_finite_canonical _ _ _ Hv) as [Hc He].
  unfold SFsqrt_core_binary. cbn [Zdigits2]. rewrite digits2_pos_log2.
  set (d := Z.log2 (Z.pos m) + 1) in *.
  set (e' := Z.min (fexp prec emax (Z.div2 (d + e + 1))) (Z.div2 e)).
  pose proof (div2_bounds (d + e + 1)) as Hd1. pose proof (div2_bounds e) as Hd2.
  pose proof (Z.log2_nonneg (Z.pos m)) as Hl.
  assert (He' : e' = Z.div2 (d + e + 1) - 53).
  { unfold e', fexp, SpecFloat.emin, prec, emax in *. lia. }
  assert (Hs : 0 <= e - 2 * e') by lia.
  set (m' := match e - 2 * e' with
             | Z.pos _ => Z.shiftl (Z.pos m) (e - 2 * e')
             | 0 => Z.pos m
             | Z.neg _ => 0
             end).
  assert (Hm' : m' = Z.pos m * 2 ^ (e - 2 * e')).
  { unfold m'. destruct (e - 2 * e') as [|p|p] eqn:Hp; [lia| |lia].
    rewrite Z.shiftl_mul_pow2 by lia. reflexivity. }
  clearbody m'.
  pose proof (Z.sqrtrem_spec m') as Hsq. pose proof (Z.sqrtrem_sqrt m') as Hq.
  destruct (Z.sqrtrem m') as [q r]. cbn [fst] in Hq.
  eexists q, e', _. split; [reflexivity|].
  assert (Hlog : 2 ^ Z.log2 (Z.pos m) <= Z.pos m < 2 ^ (Z.log2 (Z.pos m) + 1)).
  { apply Z.log2_spec. lia. }
  assert (Hlo : 2 ^ 104 <= m').
  { rewrite Hm'. transitivity (2 ^ Z.log2 (Z.pos m) * 2 ^ (e - 2 * e')).
    - rewrite <- Z.pow_add_r by lia. apply Z.pow_le_mono_r; lia.
    - apply Z.mul_le_mono_nonneg_r; [apply Z.pow_nonneg; lia|lia]. }
  assert (Hhi : m' < 2 ^ 106).
  { rewrite Hm'. apply Z.lt_le_trans with (2 ^ d * 2 ^ (e - 2 * e')).
    - apply Z.mul_lt_mono_pos_r; [apply Z.pow_pos_nonneg; lia|unfold d; lia].
    - rewrite <- Z.pow_add_r by lia. apply Z.pow_le_mono_r; lia. }
  pose proof (Z.sqrt_spec m' ltac:(lia)) as Hspec. rewrite <- Hq in Hspec.
  unfold Z.succ in Hspec.
  pose proof (fexp_ge_emin (d + e)) as Hemin. rewrite <- Hc in Hemin.
  unfold fexp, SpecFloat.emin, prec, emax in *.
  split; [lia|]. split; [lia|]. split; [lia|].
  split; [|rewrite <- Hm'; exact Hspec].
  split.
  - subst q. apply Z.sqrt_le_square; [lia|lia|]. change (2 ^ 52 * 2 ^ 52) with (2 ^ 104). exact Hlo.
  - subst q. apply Z.sqrt_lt_square; [lia|lia|]. change (2 ^ 53 * 2 ^ 53) with (2 ^ 106). exact Hhi.
Qed.

(** The square root of a positive float is a normal float: a mantissa [M]
    of 53 bits at an exponent [e2], with the operand between the squares
    of [M - 1] and [M + 1] at that exponent. *)
Lemma SFsqrt_cases (m : positive) (e : Z) :
  SpecFloat.valid_binary prec emax (S754_finite false m e) = true ->
  exists M e2 e',
    SFsqrt prec emax (S754_finite false m e) = S754_finite false (Z.to_pos M) e2 /\
    2 ^ 52 <= M < 2 ^ 53 /\ e' <= e2 /\ 2 * e' <= e /\
    (M - 1) * (M - 1) * (2 ^ (e2 - e') * 2 ^ (e2 - e')) <= Z.pos m * 2 ^ (e - 2 * e') /\
    Z.pos m * 2 ^ (e - 2 * e') <= (M + 1) * (M + 1) * (2 ^ (e2 - e') * 2 ^ (e2 - e')).
Proof.
  intros Hv.
  destruct (SFsqrt_core_cases m e Hv) as (q & e' & l & Hcore & He1 & He2 & He3 & Hq & Hsq).
  unfold SFsqrt. rewrite Hcore.
  assert (Hlogq : Z.log2 q = 52).
  { apply Z.log2_unique; [lia|]. change (52 + 1) with 53. exact Hq. }
  destruct (binary_round_aux_cases false q e' l)
    as (M & e2 & HM & Hee & Hcan & Hlo & Hhi & Hres).
  - lia.
  - rewrite Zdigits2_log2 by lia. unfold fexp, SpecFloat.emin, prec, emax. lia.
  - unfold SpecFloat.emin, prec, emax. lia.
  - rewrite Zdigits2_log2 in Hcan by lia.
    assert (Hp : 0 < 2 ^ (e2 - e')) by (apply Z.pow_pos_nonneg; lia).
    assert (HM2 : 2 ^ 52 <= M < 2 ^ 53).
    { pose proof (Z.log2_nonneg M).
      assert (Z.log2 M = 52) as HlM by (unfold fexp, SpecFloat.emin, prec, emax in *; lia).
      rewrite <- HlM at 1. change 53 with (52 + 1). rewrite <- HlM. apply Z.log2_spec. lia. }
    assert (He2' : e2 - e' < 53).
    { apply (Z.pow_lt_mono_r_iff 2); [lia|lia|].
      apply Z.le_lt_trans with ((M - 1) * 2 ^ (e2 - e')); [|lia].
      rewrite <- (Z.mul_1_l (2 ^ (e2 - e'))) at 1.
      apply Z.mul_le_mono_nonneg_r; lia. }
    exists M, e2, e'. split.
    + rewrite Hres. replace (e2 <=? emax - prec) with true; [reflexivity|].
      symmetry. apply Z.leb_le. unfold prec, emax in *. lia.
    + split; [exact HM2|]. split; [exact Hee|]. split; [exact He1|].
      set (P := 2 ^ (e2 - e')) in *. set (A := Z.pos m * 2 ^ (e - 2 * e')) in *.
      split.
      * transitivity (q * q); [|lia].
        replace ((M - 1) * (M - 1) * (P * P)) with ((M - 1) * P * ((M - 1) * P)) by ring.
        apply Z.mul_le_mono_nonneg; nia.
      * transitivity ((q + 1) * (q + 1)); [lia|].
        replace ((M + 1) * (M + 1) * (P * P)) with ((M + 1) * P * ((M + 1) * P)) by ring.
        apply Z.mul_le_mono_nonneg; lia.
Qed.

(** Powers of two among the rationals. *)
Lemma pow2_pos (e : Z) : (0 < 2 ^ e)%Q.
Proof. apply Qpower_0_lt. reflexivity. Qed.

Lemma pow2_add (a b : Z) : (2 ^ (a + b) == 2 ^ a * 2 ^ b)%Q.
Proof. apply Qpower_plus. discriminate. Qed.

Lemma pow2_inject (n : Z) : 0 <= n -> (inject_Z (2 ^ n) == 2 ^ n)%Q.
Proof. intros Hn. rewrite Zpower_Qpower by assumption. reflexivity. Qed.

Lemma scale_le (A B : Z) (c : Q) :
  A <= B -> (0 <= c)%Q -> (inject_Z A * c <= inject_Z B * c)%Q.
Proof. intros H Hc. apply Qmult_le_compat_r; [rewrite <- Zle_Qle; exact H|exact Hc]. Qed.

Lemma inject_Z_sub1 (M : Z) : (inject_Z (M - 1) == inject_Z M - 1)%Q.
Proof. unfold Z.sub. rewrite inject_Z_plus. reflexivity. Qed.

Lemma inject_Z_add1 (M : Z) : (inject_Z (M + 1) == inject_Z M + 1)%Q.
Proof. rewrite inject_Z_plus. reflexivity. Qed.

(** A number [x] between the squares of [M - 1] and [M + 1] units, with
    [M] at least [K], is within [5 / (2 K)] of the square of [M] units,
    relatively. *)
Lemma square_tolerance (K M w x : Q) :
  (10 <= K -> K <= M -> 0 <= w ->
   (M - 1) * (M - 1) * w <= x -> x <= (M + 1) * (M + 1) * w ->
   - (5 * x) <= 2 * K * (M * M * w - x) <= 5 * x)%Q.
Proof.
  intros HK HM Hw Hlo Hhi.
  assert (H1 : (0 <= M * (5 * M - 4 * K - 10) + 2 * K + 5)%Q) by nra.
  assert (H2 : (0 <= M * (5 * M - 4 * K) + 10 * M + 5 - 2 * K)%Q) by nra.
  assert (H3 : (0 <= (M * (5 * M - 4 * K - 10) + 2 * K + 5) * w)%Q)
    by (apply Qmult_le_0_compat; assumption).
  assert (H4 : (0 <= (M * (5 * M - 4 * K) + 10 * M + 5 - 2 * K) * w)%Q)
    by (apply Qmult_le_0_compat; assumption).
  assert (H5 : (0 <= (2 * K + 5) * (x - (M - 1) * (M - 1) * w))%Q)
    by (apply Qmult_le_0_compat; lra).
  assert (H6 : (0 <= (2 * K - 5) * ((M + 1) * (M + 1) * w - x))%Q)
    by (apply Qmult_le_0_compat; lra).
  split; lra.
Qed.

(** A number [z] between [M - 1] and [M + 1] units, with [M] at least [K],
    is within [1 / (K - 1)] of [M] units, relatively. *)
Lemma linear_tolerance (K M u z : Q) :
  (10 <= K -> K <= M -> 0 <= u ->
   (M - 1) * u <= z -> z <= (M + 1) * u ->
   - z <= (K - 1) * (M * u - z) <= z)%Q.
Proof.
  intros HK HM Hu Hlo Hhi.
  assert (H5 : (0 <= K * (z - (M - 1) * u))%Q) by (apply Qmult_le_0_compat; lra).
  assert (H6 : (0 <= (K - 2) * ((M + 1) * u - z))%Q) by (apply Qmult_le_0_compat; lra).
  assert (H7 : (0 <= (M - K) * u)%Q) by (apply Qmult_le_0_compat; lra).
  split; lra.
Qed.

(** The value of a positive float lies between the squares of its square
    root less one unit in the last place and plus one. *)
Lemma SFsqrt_value (m : positive) (e : Z) :
  SpecFloat.valid_binary prec emax (S754_finite false m e) = true ->
  exists M e2,
    SFsqrt prec emax (S754_finite false m e) = S754_finite false (Z.to_pos M) e2 /\
    2 ^ 52 <= M /\
    ((inject_Z M - 1) * (inject_Z M - 1) * (2 ^ e2 * 2 ^ e2) <= inject_Z (Z.pos m) * 2 ^ e /\
     inject_Z (Z.pos m) * 2 ^ e <= (inject_Z M + 1) * (inject_Z M + 1) * (2 ^ e2 * 2 ^ e2))%Q.
Proof.
  intros Hv.
  destruct (SFsqrt_cases m e Hv) as (M & e2 & e' & Hr & HM & Hee & He & Hlo & Hhi).
  exists M, e2. split; [exact Hr|]. split; [lia|].
  set (P := 2 ^ (e2 - e')) in *. set (E := (2 ^ e')%Q).
  assert (HE : (0 <= E * E)%Q).
  { pose proof (pow2_pos e') as HE. fold E in HE. nra. }
  assert (HU : (2 ^ e2 == inject_Z P * E)%Q).
  { replace e2 with ((e2 - e') + e') at 1 by lia. rewrite pow2_add.
    unfold P. rewrite pow2_inject by lia. reflexivity. }
  assert (HX : (2 ^ e == inject_Z (2 ^ (e - 2 * e')) * (E * E))%Q).
  { replace e with ((e - 2 * e') + (e' + e')) at 1 by lia. rewrite !pow2_add.
    rewrite pow2_inject by lia. reflexivity. }
  rewrite HU, HX. split.
  - apply (scale_le _ _ (E * E)) in Hlo; [|exact HE].
    rewrite !inject_Z_mult, !inject_Z_sub1 in Hlo.
    eapply Qle_trans; [|eapply Qle_trans; [exact Hlo|]]; apply Qle_lteq; right; ring.
  - apply (scale_le _ _ (E * E)) in Hhi; [|exact HE].
    rewrite !inject_Z_mult, !inject_Z_add1 in Hhi.
    eapply Qle_trans; [|eapply Qle_trans; [exact Hhi|]]; apply Qle_lteq; right; ring.
Qed.

(** [is_finite] and [is_infinity] as SpecFloat sees the float. *)
Lemma is_finite_spec (x : float) :
  is_finite x =
    match Prim2SF x with S754_zero _ | S754_finite _ _ _ => true | _ => false end.
Proof.
  unfold is_finite, is_nan, is_infinity.
  rewrite !FloatAxioms.eqb_spec, abs_spec.
  change (Prim2SF infinity) with (S754_infinity false).
  destruct (Prim2SF x) as [s|s| |s m e]; try reflexivity.
  - destruct s; reflexivity.
  - cbn [SFabs]. rewrite SFeqb_finite_refl. reflexivity.
Qed.

Lemma is_infinity_spec (x : float) :
  is_infinity x = match Prim2SF x with S754_infinity _ => true | _ => false end.
Proof.
  unfold is_infinity. rewrite FloatAxioms.eqb_spec, abs_spec.
  change (Prim2SF infinity) with (S754_infinity false).
  destruct (Prim2SF x) as [s|s| |s m e]; reflexivity.
Qed.

(** A float at or above zero is not below it and is a number. *)
Lemma ge_zero_float (x : float) :
  (0 <=? x)%float = true -> (x <? 0)%float = false /\ is_nan x = false.
Proof.
  unfold is_nan. rewrite FloatAxioms.leb_spec, FloatAxioms.ltb_spec, FloatAxioms.eqb_spec.
  change (Prim2SF 0) with (S754_zero false).
  destruct (Prim2SF x) as [s|s| |s m e]; try (cbn; discriminate).
  - intros _. split; reflexivity.
  - destruct s; [cbn; discriminate|]. intros _. split; reflexivity.
  - destruct s; [cbn; discriminate|]. intros _. rewrite SFeqb_finite_refl. split; reflexivity.
Qed.

Lemma float_value_nonneg (x : float) : (0 <=? x)%float = true -> (0 <= float_value x)%Q.
Proof.
  unfold float_value. rewrite FloatAxioms.leb_spec.
  change (Prim2SF 0) with (S754_zero false).
  destruct (Prim2SF x) as [s|s| |s m e]; cbn [sf_value]; try lra.
  destruct s; [cbn; discriminate|]. intros _.
  pose proof (pow2_pos e). assert (0 < inject_Z (Z.pos m))%Q by reflexivity. nra.
Qed.

(** The square root of NaN is NaN, that of plus infinity is plus
    infinity. *)
Lemma float_sqrt_nan (x : float) : is_nan x = true -> is_nan (PrimFloat.sqrt x) = true.
Proof.
  unfold is_nan. rewrite !FloatAxioms.eqb_spec, sqrt_spec.
  destruct (Prim2SF x) as [s|s| |s m e]; try reflexivity.
  - discriminate.
  - destruct s; cbn; discriminate.
  - rewrite SFeqb_finite_refl. discriminate.
Qed.

Lemma float_sqrt_infinity (x : float) :
  (0 <=? x)%float = true -> is_finite x = false -> PrimFloat.sqrt x = infinity.
Proof.
  rewrite is_finite_spec, FloatAxioms.leb_spec. change (Prim2SF 0) with (S754_zero false).
  intros Hge Hfin. rewrite <- (SF2Prim_Prim2SF x).
  destruct (Prim2SF x) as [s|s| |s m e]; try discriminate.
  destruct s; [cbn in Hge; discriminate|]. reflexivity.
Qed.

(** [math.sqrt] of a finite float [x >= 0] is within one unit in the last
    place of the exact square root of [x]. *)
Lemma float_sqrt_enclosure (x : float) :
  (0 <=? x)%float = true -> is_finite x = true ->
  is_finite (PrimFloat.sqrt x) = true /\
  (0 <= float_value (PrimFloat.sqrt x) - ulp (PrimFloat.sqrt x) /\
   (float_value (PrimFloat.sqrt x) - ulp (PrimFloat.sqrt x)) ^ 2 <= float_value x /\
   float_value x <= (float_value (PrimFloat.sqrt x) + ulp (PrimFloat.sqrt x)) ^ 2)%Q.
Proof.
  rewrite !is_finite_spec. unfold float_value, ulp.
  rewrite FloatAxioms.leb_spec, sqrt_spec. change (Prim2SF 0) with (S754_zero false).
  unfold SF64sqrt. pose proof (Prim2SF_valid x) as Hv.
  destruct (Prim2SF x) as [s|s| |s m e]; try discriminate.
  - intros _ _. cbn [SFsqrt sf_value]. split; [reflexivity|]. repeat split; cbn; discriminate.
  - destruct s; [cbn; discriminate|]. intros _ _.
    destruct (SFsqrt_value m e Hv) as (M & e2 & Hr & HM & Hlo & Hhi).
    rewrite Hr. split; [reflexivity|]. cbn [sf_value].
    rewrite Z2Pos.id by lia.
    pose proof (pow2_pos e2) as HU.
    assert (HM1 : (1 <= inject_Z M)%Q) by (change 1%Q with (inject_Z 1); rewrite <- Zle_Qle; lia).
    split; [nra|]. split.
    + eapply Qle_trans; [|exact Hlo]. apply Qle_lteq; right. ring.
    + eapply Qle_trans; [exact Hhi|]. apply Qle_lteq; right. ring.
Qed.

(** Hence its square is within [5 / 2^53] of [x], relatively. *)
Lemma float_sqrt_accurate (x : float) :
  (0 <=? x)%float = true -> is_finite x = true ->
  is_finite (PrimFloat.sqrt x) = true /\
  (- (5 * float_value x) <=
     2 * inject_Z (2 ^ 52) *
       (float_value (PrimFloat.sqrt x) * float_value (PrimFloat.sqrt x) - float_value x) <=
     5 * float_value x)%Q.
Proof.
  rewrite !is_finite_spec. unfold float_value.
  rewrite FloatAxioms.leb_spec, sqrt_spec. change (Prim2SF 0) with (S754_zero false).
  unfold SF64sqrt. pose proof (Prim2SF_valid x) as Hv.
  destruct (Prim2SF x) as [s|s| |s m e]; try discriminate.
  - intros _ _. cbn [SFsqrt sf_value]. split; [reflexivity|]. split; lra.
  - destruct s; [cbn; discriminate|]. intros _ _.
    destruct (SFsqrt_value m e Hv) as (M & e2 & Hr & HM & Hlo & Hhi).
    rewrite Hr. split; [reflexivity|]. cbn [sf_value].
    rewrite Z2Pos.id by lia.
    set (X := (inject_Z (Z.pos m) * 2 ^ e)%Q) in *.
    pose proof (pow2_pos e2) as HU.
    pose proof (square_tolerance (inject_Z (2 ^ 52)) (inject_Z M) (2 ^ e2 * 2 ^ e2) X) as Ht.
    assert (H10 : (10 <= inject_Z (2 ^ 52))%Q) by (vm_compute; discriminate).
    assert (HKM : (inject_Z (2 ^ 52) <= inject_Z M)%Q) by (rewrite <- Zle_Qle; exact HM).
    assert (Hw : (0 <= 2 ^ e2 * 2 ^ e2)%Q) by nra.
    specialize (Ht H10 HKM Hw Hlo Hhi).
    destruct Ht as [Ht1 Ht2]. split.
    + eapply Qle_trans; [exact Ht1|]. apply Qle_lteq; right. ring.
    + eapply Qle_trans; [|exact Ht2]. apply Qle_lteq; right. ring.
Qed.

(** What [shl_align] does to the value: nothing. *)
Lemma iter_xO_value (m d : positive) : Z.pos (Pos.iter xO m d) = Z.pos m * 2 ^ Z.pos d.
Proof.
  induction d as [|d IH] using Pos.peano_ind.
  - cbn [Pos.iter]. change (Z.pos m~0) with (2 * Z.pos m). lia.
  - rewrite Pos.iter_succ. change (Z.pos (Pos.iter xO m d)~0) with (2 * Z.pos (Pos.iter xO m d)).
    rewrite IH, Pos2Z.inj_succ, Z.pow_succ_r by lia. ring.
Qed.

Lemma shl_align_value (m : positive) (e e' : Z) :
  let '(mz, ez) := shl_align m e e' in
  (ez = e \/ ez = e') /\ ez <= e /\ Z.pos mz = Z.pos m * 2 ^ (e - ez).
Proof.
  unfold shl_align. destruct (e' - e) as [|d|d] eqn:Hd.
  - split; [left; reflexivity|]. split; [lia|]. rewrite Z.sub_diag. lia.
  - split; [left; reflexivity|]. split; [lia|]. rewrite Z.sub_diag. lia.
  - split; [right; reflexivity|]. split; [lia|]. rewrite iter_xO_value. do 2 f_equal. lia.
Qed.

(** The float [PyLong_AsDouble] gives for a positive [int] is finite, not
    below zero and within [1 / (2^52 - 1)] of the [int], relatively. *)
Lemma float_of_Z_accurate (z : Z) (x : float) :
  0 < z -> long_as_double z = Ok x ->
  is_finite x = true /\ (0 <=? x)%float = true /\
  (- inject_Z z <= (inject_Z (2 ^ 52) - 1) * (float_value x - inject_Z z) <= inject_Z z)%Q.
Proof.
  intros Hz. unfold long_as_double.
  rewrite is_infinity_spec, is_finite_spec. unfold float_value.
  rewrite FloatAxioms.leb_spec. change (Prim2SF 0) with (S754_zero false).
  destruct (match Prim2SF (float_of_Z z) with S754_infinity _ => true | _ => false end) eqn:Hinf;
    [discriminate|].
  intros [= <-]. rewrite float_of_Z_spec in *.
  destruct z as [|p|p]; try lia. cbn [binary_normalize] in *.
  unfold binary_round in *.
  pose proof (shl_align_canonical p 0) as Hcan.
  pose proof (shl_align_value p 0 (fexp prec emax (Z.pos (digits2_pos p) + 0))) as Hval.
  destruct (shl_align p 0 _) as [mz ez].
  destruct Hcan as [Hc1 Hc2]. destruct Hval as (Hez & Hle & Hmz).
  pose proof (Z.log2_nonneg (Z.pos p)) as Hlp.
  rewrite digits2_pos_log2 in Hez.
  destruct (binary_round_aux_cases false (Z.pos mz) ez loc_Exact)
    as (M & e2 & HM & Hee & Hcanon & Hlo & Hhi & Hres).
  - lia.
  - exact Hc1.
  - unfold SpecFloat.emin, prec, emax. lia.
  - rewrite Hres in *. destruct (e2 <=? emax - prec); [|discriminate].
    split; [reflexivity|]. split; [reflexivity|]. cbn [sf_value].
    rewrite Z2Pos.id by lia.
    rewrite Zdigits2_log2 in Hcanon by lia. pose proof (Z.log2_nonneg M) as HlM.
    assert (HlM52 : Z.log2 M = 52) by (unfold fexp, SpecFloat.emin, prec, emax in *; lia).
    assert (HM52 : 2 ^ 52 <= M).
    { rewrite <- HlM52. apply Z.log2_spec. lia. }
    set (P := 2 ^ (e2 - ez)) in *. set (E := (2 ^ ez)%Q).
    pose proof (pow2_pos ez) as HE. fold E in HE.
    assert (HU : (2 ^ e2 == inject_Z P * E)%Q).
    { replace e2 with ((e2 - ez) + ez) at 1 by lia. rewrite pow2_add.
      unfold P. rewrite pow2_inject by lia. reflexivity. }
    assert (HZ : (inject_Z (Z.pos p) == inject_Z (Z.pos mz) * E)%Q).
    { rewrite Hmz, inject_Z_mult, pow2_inject by lia. unfold E.
      rewrite <- Qmult_assoc, <- pow2_add. replace (0 - ez + ez) with 0 by lia.
      change (2 ^ 0)%Q with 1%Q. ring. }
    apply (scale_le _ _ E) in Hlo; [|lra]. apply (scale_le _ _ E) in Hhi; [|lra].
    rewrite inject_Z_mult, inject_Z_sub1 in Hlo.
    rewrite inject_Z_mult, !inject_Z_add1 in Hhi.
    pose proof (linear_tolerance (inject_Z (2 ^ 52)) (inject_Z M) (2 ^ e2)
                  (inject_Z (Z.pos p))) as Ht.
    assert (H10 : (10 <= inject_Z (2 ^ 52))%Q) by (vm_compute; discriminate).
    assert (HKM : (inject_Z (2 ^ 52) <= inject_Z M)%Q) by (rewrite <- Zle_Qle; exact HM52).
    pose proof (pow2_pos e2) as HU0.
    apply Ht; try assumption; try lra.
    + rewrite HU, HZ. eapply Qle_trans; [|exact Hlo]. apply Qle_lteq; right; ring.
    + rewrite HU, HZ. eapply Qle_trans; [|eapply Qle_trans; [exact Hhi|]].
      * lra.
      * apply Qle_lteq; right; ring.
Qed.

(** An [int] from zero to below [2^1023] has a float. *)
Lemma float_of_Z_finite (z : Z) : 0 <= z < 2 ^ 1023 -> is_infinity (float_of_Z z) = false.
Proof.
  intros Hz. rewrite is_infinity_spec, float_of_Z_spec.
  destruct z as [|p|p]; [reflexivity| |lia]. cbn [binary_normalize]. unfold binary_round.
  pose proof (shl_align_canonical p 0) as Hcan.
  pose proof (shl_align_value p 0 (fexp prec emax (Z.pos (digits2_pos p) + 0))) as Hval.
  destruct (shl_align p 0 _) as [mz ez].
  destruct Hcan as [Hc1 Hc2]. destruct Hval as (Hez & Hle & Hmz).
  pose proof (Z.log2_nonneg (Z.pos p)) as Hlp.
  destruct (binary_round_aux_cases false (Z.pos mz) ez loc_Exact)
    as (M & e2 & HM & Hee & Hcanon & Hlo & _ & Hres).
  - lia.
  - exact Hc1.
  - unfold SpecFloat.emin, prec, emax. lia.
  - rewrite Hres. destruct (e2 <=? emax - prec) eqn:He2; [reflexivity|exfalso].
    apply Z.leb_gt in He2.
    rewrite Zdigits2_log2 in Hcanon by lia. pose proof (Z.log2_nonneg M) as HlM.
    assert (HlM52 : Z.log2 M = 52) by (unfold fexp, SpecFloat.emin, prec, emax in *; lia).
    assert (HM52 : 2 ^ 52 <= M) by (rewrite <- HlM52; apply Z.log2_spec; lia).
    assert (He2' : 972 <= e2) by (unfold prec, emax in *; lia).
    replace (e2 - ez) with (e2 + (0 - ez)) in Hlo by lia.
    rewrite Z.pow_add_r, Hmz, Z.mul_assoc in Hlo by lia.
    apply Z.mul_le_mono_pos_r in Hlo; [|apply Z.pow_pos_nonneg; lia].
    assert (Hbig : 2 ^ 1023 <= (2 ^ 52 - 1) * 2 ^ 972) by (vm_compute; discriminate).
    assert (Hpow : 2 ^ 972 <= 2 ^ e2) by (apply Z.pow_le_mono_r; lia).
    assert (Hprod : (2 ^ 52 - 1) * 2 ^ 972 <= (M - 1) * 2 ^ e2).
    { apply Z.mul_le_mono_nonneg; lia. }
    lia.
Qed.

(** The two ways of a call of ['sqrt'] whose operand is not negative: with
    a float for the operand, [math.sqrt] of that float is returned; with
    none, the operand is an [int] of [2^1023] at least and the call raises
    [OverflowError]. *)
Lemma sqrt_of_float_value (L : libm) (h : list Calculation) (a : number) (x : float) :
  lt_zero a = false -> as_double a = Ok x ->
  (is_nan x = false -> is_nan (PrimFloat.sqrt x) = false) ->
  fst (calculate "sqrt" [a] (with_history L h)) = Ok (Num (Float (PrimFloat.sqrt x))).
Proof.
  intros Ha Hx Hnan. rewrite calculate_with_history, outcome_sqrt.
  unfold Calculator.sqrt. rewrite Ha. unfold math_sqrt. rewrite Hx. cbn [Py.bind].
  destruct (is_nan x) eqn:Hn.
  - rewrite andb_false_r. reflexivity.
  - rewrite Hnan by reflexivity. reflexivity.
Qed.

Lemma sqrt_of_huge_int (L : libm) (h : list Calculation) (a : number) (e : exn) :
  lt_zero a = false -> as_double a = Raise e ->
  fst (calculate "sqrt" [a] (with_history L h)) = Raise OverflowError /\
  exists z, a = Int z /\ 2 ^ 1023 <= z /\ long_as_double z = Raise OverflowError.
Proof.
  intros Ha Hx. rewrite calculate_with_history, outcome_sqrt.
  unfold Calculator.sqrt. rewrite Ha. unfold math_sqrt. rewrite Hx. cbn [Py.bind Py.map fst].
  destruct a as [z|y]; cbn [as_double lt_zero] in *; [|discriminate].
  apply Z.ltb_ge in Ha. unfold long_as_double in *.
  destruct (is_infinity (float_of_Z z)) eqn:Hinf; [|discriminate].
  injection Hx as <-. split; [reflexivity|]. exists z. split; [reflexivity|].
  split; [|rewrite Hinf; reflexivity].
  destruct (Z.lt_ge_cases z (2 ^ 1023)) as [Hlt|Hge]; [|exact Hge].
  rewrite float_of_Z_finite in Hinf by lia. discriminate.
Qed.

Lemma ge_zero_not_lt (a : number) (x : float) :
  ge_zero a = true -> as_double a = Ok x ->
  lt_zero a = false /\ (0 <=? x)%float = true.
Proof.
  destruct a as [z|y]; cbn [ge_zero lt_zero as_double].
  - intros Hz Hx. apply Z.leb_le in Hz. split; [apply Z.ltb_ge; exact Hz|].
    destruct (Z.eq_dec z 0) as [->|Hne].
    + vm_compute in Hx. injection Hx as <-. reflexivity.
    + apply (float_of_Z_accurate z x); [lia|exact Hx].
  - intros Hy [= <-]. split; [apply ge_zero_float; exact Hy|exact Hy].
Qed.

Lemma tolerance_value : (tolerance == 1 # 1125899906842624)%Q.
Proof. reflexivity. Qed.

(** C4, as amended: for every [a < 0], [calculate('sqrt', a)] fails with
    the invalid-argument [ValueError]; for every [a >= 0] that is a float,
    or an [int] that has a float (every [int] below [2^1023] has), it
    returns [math.sqrt] of that float, a root that is not below zero; when
    [a] is finite so is the root, and the square of the root differs from
    [a] by [a * 2^-50] at most, in exact arithmetic; the root of plus
    infinity is plus infinity.  An [int] with no float, which is [2^1023]
    at least, gets [OverflowError]. *)
Theorem sqrt_contract (L : libm) (h : list Calculation) (a : number) :
  (lt_zero a = true ->
   fst (calculate "sqrt" [a] (with_history L h)) =
     Raise (ValueError "Cannot calculate square root of negative number")) /\
  (ge_zero a = true ->
   match as_double a with
   | Ok x =>
       let root := PrimFloat.sqrt x in
       fst (calculate "sqrt" [a] (with_history L h)) = Ok (Num (Float root)) /\
       (0 <=? root)%float = true /\
       (is_finite x = true ->
        is_finite root = true /\
        (Qabs (float_value root * float_value root - number_value a)
           <= number_value a * tolerance)%Q) /\
       (is_finite x = false -> root = infinity)
   | Raise e =>
       fst (calculate "sqrt" [a] (with_history L h)) = Raise OverflowError /\
       exists z, a = Int z /\ 2 ^ 1023 <= z
   end).
Proof.
  split.
  - intros Ha. rewrite sqrt_negative_rejected by exact Ha. reflexivity.
  - intros Hge. destruct (as_double a) as [x|e] eqn:Hx.
    + destruct (ge_zero_not_lt a x Hge Hx) as [Hlt Hx0].
      destruct (ge_zero_float x Hx0) as [Hxlt Hxnan].
      destruct (float_sqrt_nonneg x Hxlt Hxnan) as [Hroot Hrnan].
      cbv zeta. split; [apply sqrt_of_float_value; auto|]. split; [exact Hroot|]. split.
      * intros Hfin. destruct (float_sqrt_accurate x Hx0 Hfin) as (Hrfin & Hr1 & Hr2).
        split; [exact Hrfin|].
        change (inject_Z (2 ^ 52)) with 4503599627370496%Q in Hr1, Hr2.
        apply Qabs_Qle_condition. rewrite tolerance_value.
        set (R := (float_value (PrimFloat.sqrt x) * float_value (PrimFloat.sqrt x))%Q) in *.
        destruct a as [z|y]; cbn [number_value as_double ge_zero] in *.
        -- apply Z.leb_le in Hge. destruct (Z.eq_dec z 0) as [->|Hne].
           ++ vm_compute in Hx. injection Hx as <-. split; vm_compute; discriminate.
           ++ destruct (float_of_Z_accurate z x ltac:(lia) Hx) as (_ & _ & Hz1 & Hz2).
              change (inject_Z (2 ^ 52)) with 4503599627370496%Q in Hz1, Hz2.
              split; lra.
        -- injection Hx as ->. pose proof (float_value_nonneg x Hx0). split; lra.
      * intros Hfin. apply float_sqrt_infinity; assumption.
    + destruct a as [z|y]; cbn [ge_zero] in Hge.
      * apply Z.leb_le in Hge.
        destruct (sqrt_of_huge_int L h (Int z) e) as (Hr & z' & Hz' & Hbig & _);
          [apply Z.ltb_ge; exact Hge|exact Hx|].
        split; [exact Hr|]. exists z'. split; assumption.
      * discriminate.
Qed.

Lemma sqrt_contract_witness :
  ge_zero (Int 16) = true /\
  fst (calculate "sqrt" [Int 16] (with_history table_libm [])) = Ok (Num (Float 4)) /\
  (0 <=? 4)%float = true /\
  (Qabs (float_value 4 * float_value 4 - number_value (Int 16))
     <= number_value (Int 16) * tolerance)%Q.
Proof.
  pose proof (proj2 (sqrt_contract table_libm [] (Int 16)) eq_refl) as H.
  change (as_double (Int 16)) with (@Ok float 16%float) in H.
  cbv zeta in H. change (PrimFloat.sqrt 16) with 4%float in H.
  destruct H as (Hcall & Hroot & Hfin & _).
  split; [reflexivity|]. split; [exact Hcall|]. split; [exact Hroot|].
  exact (proj2 (Hfin eq_refl)).
Defined.

(** C4 as stated fails: [2**1024] is an [int] that is not below zero, and
    [calculate('sqrt', 2**1024)] returns no root: [math.sqrt] raises
    [OverflowError], the [int] being beyond the floats. *)
Example sqrt_huge_int_raises :
  ge_zero (Int (2 ^ 1024)) = true /\
  lt_zero (Int (2 ^ 1024)) = false /\
  fst (calculate "sqrt" [Int (2 ^ 1024)] (with_history table_libm [])) = Raise OverflowError.
Proof.
  split; [reflexivity|]. split; [reflexivity|].
  rewrite calculate_with_history, outcome_sqrt.
  assert (Hs : Calculator.sqrt (Int (2 ^ 1024)) = Raise OverflowError)
    by (vm_compute; reflexivity).
  rewrite Hs. reflexivity.
Qed.

(** ** Addition, subtraction, multiplication *)

(** The only way [+], [-] and [*] fail. *)
Lemma arith_raises (iop : Z -> Z -> Z) (fop : float -> float -> float)
    (a b : number) (e : exn) :
  arith iop fop a b = Raise e ->
  e = OverflowError /\
  ((exists z y, a = Int z /\ b = Float y /\ long_as_double z = Raise OverflowError) \/
   (exists x z, a = Float x /\ b = Int z /\ long_as_double z = Raise OverflowError)).
Proof.
  assert (Hconv : forall z e', long_as_double z = Raise e' -> e' = OverflowError).
  { intros z e'. unfold long_as_double. destruct (is_infinity _); congruence. }
  destruct a as [x|x], b as [y|y]; cbn [arith as_double Py.bind]; try discriminate.
  - destruct (long_as_double x) as [fx|e'] eqn:Hx; cbn [Py.bind]; [discriminate|].
    intros [= <-]. pose proof (Hconv _ _ Hx) as ->.
    split; [reflexivity|]. left. exists x, y. repeat split. exact Hx.
  - destruct (long_as_double y) as [fy|e'] eqn:Hy; cbn [Py.bind]; [discriminate|].
    intros [= <-]. pose proof (Hconv _ _ Hy) as ->.
    split; [reflexivity|]. right. exists x, y. repeat split. exact Hy.
Qed.

(** X7: [calculate] with ['+'], ['-'] or ['*'] is exact on two ints,
    whatever their size, and returns the IEEE sum, difference or product of
    two floats, whatever they are; the only failure of a call with two
    operands is [OverflowError], when an [int] too large for a float meets
    a float. *)
Theorem add_subtract_multiply (L : libm) (h : list Calculation) :
  (forall x y : Z,
     fst (calculate "+" [Int x; Int y] (with_history L h)) = Ok (Num (Int (x + y))) /\
     fst (calculate "-" [Int x; Int y] (with_history L h)) = Ok (Num (Int (x - y))) /\
     fst (calculate "*" [Int x; Int y] (with_history L h)) = Ok (Num (Int (x * y)))) /\
  (forall x y : float,
     fst (calculate "+" [Float x; Float y] (with_history L h)) = Ok (Num (Float (x + y))) /\
     fst (calculate "-" [Float x; Float y] (with_history L h)) = Ok (Num (Float (x - y))) /\
     fst (calculate "*" [Float x; Float y] (with_history L h)) = Ok (Num (Float (x * y)))) /\
  (forall op a b e,
     op ∈ ["+"; "-"; "*"] ->
     fst (calculate op [a; b] (with_history L h)) = Raise e ->
     e = OverflowError /\
     ((exists z y, a = Int z /\ b = Float y /\ long_as_double z = Raise OverflowError) \/
      (exists x z, a = Float x /\ b = Int z /\ long_as_double z = Raise OverflowError))).
Proof.
  split; [|split].
  - intros x y. rewrite !calculate_with_history, outcome_add, outcome_subtract,
      outcome_multiply. repeat split; reflexivity.
  - intros x y. rewrite !calculate_with_history, outcome_add, outcome_subtract,
      outcome_multiply. repeat split; reflexivity.
  - intros op a b e Hop. rewrite !elem_of_cons, elem_of_nil in Hop.
    rewrite calculate_with_history.
    destruct Hop as [->|[->|[->|[]]]];
      [rewrite outcome_add; unfold add, Py.add
      |rewrite outcome_subtract; unfold subtract, Py.sub
      |rewrite outcome_multiply; unfold multiply, Py.mul];
      unfold Py.map;
      match goal with
      | |- context [arith ?i ?f a b] =>
          destruct (arith i f a b) as [v|e'] eqn:Hr; cbn [Py.bind fst];
            [discriminate|intros [= <-]; exact (arith_raises i f a b e' Hr)]
      end.
Qed.

Lemma add_subtract_multiply_witness :
  fst (calculate "+" [Int (2 ^ 1024); Float 1] (with_history table_libm [])) =
    Raise OverflowError /\
  OverflowError = OverflowError /\
  ((exists z y, Int (2 ^ 1024) = Int z /\ Float 1 = Float y /\
      long_as_double z = Raise OverflowError) \/
   (exists x z, Int (2 ^ 1024) = Float x /\ Float 1 = Int z /\
      long_as_double z = Raise OverflowError)).
Proof.
  assert (Hcall : fst (calculate "+" [Int (2 ^ 1024); Float 1] (with_history table_libm []))
                  = Raise OverflowError).
  { rewrite calculate_with_history, outcome_add.
    assert (Ha : add (Int (2 ^ 1024)) (Float 1) = Raise OverflowError)
      by (vm_compute; reflexivity).
    rewrite Ha. reflexivity. }
  split; [exact Hcall|].
  apply (proj2 (proj2 (add_subtract_multiply table_libm [])) "+" (Int (2 ^ 1024)) (Float 1));
    [apply elem_of_cons; left; reflexivity | exact Hcall].
Defined.

(** ** Division, whatever the operands *)

(** With a divisor other than zero, Python's [/] can only overflow, and
    only with an [int] among the operands. *)
Lemma truediv_raises (a b : number) (e : exn) :
  eq_zero b = false -> truediv a b = Raise e ->
  e = OverflowError /\ exists z, a = Int z \/ b = Int z.
Proof.
  intros Hb.
  destruct a as [x|x], b as [y|y]; cbn [truediv as_double eq_zero] in *.
  - unfold long_true_divide. rewrite Hb.
    destruct (Z.abs x =? 0); [discriminate|].
    cbv zeta. destruct (is_infinity _); [|discriminate].
    cbn [Py.map Py.bind]. intros [= <-]. eauto.
  - unfold long_as_double.
    destruct (is_infinity (float_of_Z x)); cbn [Py.bind as_double].
    + intros [= <-]. eauto.
    + unfold float_div. rewrite Hb. discriminate.
  - unfold long_as_double. cbn [Py.bind as_double].
    destruct (is_infinity (float_of_Z y)); cbn [Py.bind as_double].
    + intros [= <-]. eauto.
    + unfold float_div. rewrite float_of_Z_nonzero by (apply Z.eqb_neq; exact Hb).
      discriminate.
  - cbn [Py.bind]. unfold float_div. rewrite Hb. discriminate.
Qed.

(** X8: the zero test of [divide] is complete.  A divisor that compares
    equal to zero (the [int] 0, 0.0 or -0.0) always gives
    [ValueError("Cannot divide by zero")]; with any other divisor Python's
    own [ZeroDivisionError] cannot occur: the call returns, or raises
    [OverflowError], and that only with an [int] among the operands; two
    floats with a divisor other than zero always have their IEEE quotient
    returned. *)
Theorem divide_guard_complete (L : libm) (h : list Calculation) (a b : number) :
  (eq_zero b = true ->
   fst (calculate "/" [a; b] (with_history L h)) = Raise (ValueError "Cannot divide by zero")) /\
  (eq_zero b = false ->
   forall e, fst (calculate "/" [a; b] (with_history L h)) = Raise e ->
   e = OverflowError /\ exists z, a = Int z \/ b = Int z) /\
  (forall x y, a = Float x -> b = Float y -> (y =? 0)%float = false ->
   fst (calculate "/" [a; b] (with_history L h)) = Ok (Num (Float (x / y)))).
Proof.
  rewrite calculate_with_history, outcome_divide.
  split; [|split].
  - intros Hb. unfold divide. rewrite Hb. reflexivity.
  - intros Hb e. unfold divide. rewrite Hb.
    destruct (truediv a b) as [q|e'] eqn:Hq; cbn [Py.map Py.bind fst]; [discriminate|].
    intros [= <-]. exact (truediv_raises a b e' Hb Hq).
  - intros x y -> -> Hy. rewrite divide_floats by assumption. reflexivity.
Qed.

Lemma divide_guard_complete_witness :
  fst (calculate "/" [Float 1; Float (-0)] (with_history table_libm [])) =
    Raise (ValueError "Cannot divide by zero").
Proof.
  apply (proj1 (divide_guard_complete table_libm [] (Float 1) (Float (-0)))).
  reflexivity.
Defined.

(** ** Square root, whatever the operand *)

(** X9: a negative operand of ['sqrt'] gives the [ValueError] of [sqrt];
    any other operand never meets [math.sqrt]'s own domain error.  With a
    float [x] for the operand (the operand itself, or the float of an
    [int]) the call returns [math.sqrt(x)], the IEEE square root of [x]:
    NaN for a NaN operand, which only a float can be, and not below zero
    otherwise; for a finite [x] it is finite and within one unit in the
    last place of the exact square root of [x].  With no float for the
    operand, an [int] too large, the call raises [OverflowError]. *)
Theorem sqrt_guard_complete (L : libm) (h : list Calculation) (a : number) :
  (lt_zero a = true ->
   fst (calculate "sqrt" [a] (with_history L h)) =
     Raise (ValueError "Cannot calculate square root of negative number")) /\
  (lt_zero a = false ->
   match as_double a with
   | Ok x =>
       let r := PrimFloat.sqrt x in
       fst (calculate "sqrt" [a] (with_history L h)) = Ok (Num (Float r)) /\
       (is_nan x = true -> is_nan r = true /\ exists y, a = Float y) /\
       (is_nan x = false -> (0 <=? r)%float = true) /\
       (is_finite x = true ->
        is_finite r = true /\
        (0 <= float_value r - ulp r /\
         (float_value r - ulp r) ^ 2 <= float_value x /\
         float_value x <= (float_value r + ulp r) ^ 2)%Q)
   | Raise e =>
       fst (calculate "sqrt" [a] (with_history L h)) = Raise OverflowError /\
       exists z, a = Int z /\ long_as_double z = Raise OverflowError
   end).
Proof.
  split.
  - intros Ha. rewrite sqrt_negative_rejected by exact Ha. reflexivity.
  - intros Ha. destruct (as_double a) as [x|e] eqn:Hx.
    + assert (Hxlt : (x <? 0)%float = false).
      { destruct a as [z|y]; cbn [as_double lt_zero] in *; [|congruence].
        unfold long_as_double in Hx. destruct (is_infinity _); [discriminate|].
        injection Hx as <-. apply float_of_Z_nonneg. apply Z.ltb_ge. exact Ha. }
      cbv zeta. split; [|split; [|split]].
      * apply sqrt_of_float_value; [exact Ha|exact Hx|].
        intros Hnan. apply float_sqrt_nonneg; assumption.
      * intros Hnan. split; [apply float_sqrt_nan; exact Hnan|].
        destruct a as [z|y]; [|exists y; reflexivity].
        cbn [as_double lt_zero] in *. unfold long_as_double in Hx.
        destruct (is_infinity _); [discriminate|]. injection Hx as <-.
        apply Z.ltb_ge in Ha. destruct (float_of_Z_nonneg z Ha) as [_ Hn]. congruence.
      * intros Hnan. apply float_sqrt_nonneg; assumption.
      * intros Hfin. apply float_sqrt_enclosure; [|exact Hfin].
        rewrite is_finite_spec in Hfin. revert Hxlt.
        rewrite FloatAxioms.leb_spec, FloatAxioms.ltb_spec.
        change (Prim2SF 0) with (S754_zero false).
        destruct (Prim2SF x) as [s|s| |s m e]; try discriminate; try reflexivity.
        destruct s; [cbn; discriminate|reflexivity].
    + destruct (sqrt_of_huge_int L h a e Ha Hx) as (Hr & z & Hz & _ & Hconv).
      split; [exact Hr|]. exists z. split; assumption.
Qed.

Lemma sqrt_guard_complete_witness :
  fst (calculate "sqrt" [Float 2] (with_history table_libm [])) =
    Ok (Num (Float 0x1.6a09e667f3bcdp+0)) /\
  (0 <=? 0x1.6a09e667f3bcdp+0)%float = true /\
  ((float_value 0x1.6a09e667f3bcdp+0 - ulp 0x1.6a09e667f3bcdp+0) ^ 2 <= float_value 2 /\
   float_value 2 <= (float_value 0x1.6a09e667f3bcdp+0 + ulp 0x1.6a09e667f3bcdp+0) ^ 2)%Q.
Proof.
  pose proof (proj2 (sqrt_guard_complete table_libm [] (Float 2)) eq_refl) as H.
  cbn [as_double] in H. cbv zeta in H.
  change (PrimFloat.sqrt 2) with 0x1.6a09e667f3bcdp+0%float in H.
  destruct H as (Hcall & _ & Hroot & Hfin).
  split; [exact Hcall|]. split; [exact (Hroot eq_refl)|].
  exact (proj2 (proj2 (Hfin eq_refl))).
Defined.

(** ** A zero base and a negative exponent *)

Lemma float_lt_zero_facts (y : float) :
  (y <? 0)%float = true -> (y =? 0)%float = false /\ is_nan y = false.
Proof.
  unfold is_nan. rewrite FloatAxioms.ltb_spec, !FloatAxioms.eqb_spec.
  change (Prim2SF 0) with (S754_zero false).
  destruct (Prim2SF y) as [s|s| |s m e]; try destruct s;
    try (cbn; discriminate); intros _; split; try reflexivity.
  rewrite SFeqb_finite_refl. reflexivity.
Qed.

Lemma float_eq_zero_facts (x : float) :
  (x =? 0)%float = true -> is_nan x = false /\ is_infinity x = false.
Proof.
  unfold is_nan, is_infinity. rewrite !FloatAxioms.eqb_spec, abs_spec.
  change (Prim2SF 0) with (S754_zero false).
  change (Prim2SF infinity) with (S754_infinity false).
  destruct (Prim2SF x) as [s|s| |s m e]; try destruct s; cbn; try discriminate;
    intros _; split; reflexivity.
Qed.

Lemma float_pow_zero_negative (L : libm) (x y : float) :
  (x =? 0)%float = true -> (y <? 0)%float = true -> is_infinity y = false ->
  float_pow L x y = Raise ZeroDivisionError.
Proof.
  intros Hx Hy Hinf. unfold float_pow.
  destruct (float_lt_zero_facts y Hy) as [Hy0 Hynan].
  destruct (float_eq_zero_facts x Hx) as [Hxnan Hxinf].
  rewrite Hy0, Hxnan, Hynan, Hinf, Hxinf, Hx, Hy. reflexivity.
Qed.

(** X10: a zero base with a negative exponent never has a power.  For
    floats, 0.0 or -0.0 to a negative power other than minus infinity
    raises [ZeroDivisionError]; for ints, 0 to a negative power raises
    [ZeroDivisionError] too, or [OverflowError] when the exponent is too
    large for a float. *)
Theorem power_zero_base_negative_exponent (L : libm) (h : list Calculation) :
  (forall x y : float,
     (x =? 0)%float = true -> (y <? 0)%float = true -> is_infinity y = false ->
     fst (calculate "**" [Float x; Float y] (with_history L h)) = Raise ZeroDivisionError) /\
  (forall y : Z,
     y < 0 ->
     fst (calculate "**" [Int 0; Int y] (with_history L h)) =
       Raise (if is_infinity (float_of_Z y) then OverflowError else ZeroDivisionError)).
Proof.
  split.
  - intros x y Hx Hy Hinf. rewrite calculate_with_history, outcome_power.
    unfold power. cbn [Py.pow as_double Py.bind].
    rewrite float_pow_zero_negative by assumption. reflexivity.
  - intros y Hy. rewrite calculate_with_history, outcome_power.
    unfold power. cbn [Py.pow]. apply Z.leb_gt in Hy as Hy'. rewrite Hy'.
    change (long_as_double 0) with (@Ok float 0%float). cbn [Py.bind].
    unfold long_as_double.
    destruct (is_infinity (float_of_Z y)) eqn:Hinf; cbn [Py.bind fst]; [reflexivity|].
    destruct (float_of_Z_negative y Hy) as (Hlt & _ & _).
    rewrite float_pow_zero_negative by (assumption || reflexivity). reflexivity.
Qed.

Lemma power_zero_base_negative_exponent_witness :
  fst (calculate "**" [Float (-0); Float (-0.5)] (with_history table_libm [])) =
    Raise ZeroDivisionError.
Proof.
  apply (proj1 (power_zero_base_negative_exponent table_libm []) (-0)%float (-0.5)%float);
    reflexivity.
Defined.

(** ** What [calculate] can raise *)

Lemma pow_raises (L : libm) (a b : number) (e : exn) :
  Py.pow L a b = Raise e -> e = ZeroDivisionError \/ e = OverflowError.
Proof.
  assert (Hconv : forall z e', long_as_double z = Raise e' -> e' = OverflowError).
  { intros z e'. unfold long_as_double. destruct (is_infinity _); congruence. }
  assert (Hfloat : forall x y, float_pow L x y = Raise e ->
                   e = ZeroDivisionError \/ e = OverflowError).
  { intros x y. unfold float_pow, complex_pow.
    destruct (c_cpow L x y) as [re im].
    repeat match goal with
    | |- context [if ?c then _ else _] => destruct c
    end; intros [= <-]; auto. }
  destruct a as [x|x], b as [y|y]; cbn [Py.pow as_double Py.bind].
  - destruct (0 <=? y); [discriminate|].
    destruct (long_as_double x) as [fx|e'] eqn:Hx; cbn [Py.bind];
      [|intros [= <-]; right; eapply Hconv, Hx].
    destruct (long_as_double y) as [fy|e'] eqn:Hy; cbn [Py.bind];
      [apply Hfloat|intros [= <-]; right; eapply Hconv, Hy].
  - destruct (long_as_double x) as [fx|e'] eqn:Hx; cbn [Py.bind];
      [apply Hfloat|intros [= <-]; right; eapply Hconv, Hx].
  - destruct (long_as_double y) as [fy|e'] eqn:Hy; cbn [Py.bind];
      [apply Hfloat|intros [= <-]; right; eapply Hconv, Hy].
  - apply Hfloat.
Qed.

Lemma math_sqrt_raises (a : number) (e : exn) :
  math_sqrt a = Raise e -> e = OverflowError \/ e = ValueError "math domain error".
Proof.
  unfold math_sqrt. destruct a as [z|x]; cbn [as_double Py.bind].
  - unfold long_as_double. destruct (is_infinity _); cbn [Py.bind].
    + intros [= <-]. auto.
    + destruct (_ && _); [intros [= <-]; auto|discriminate].
  - destruct (_ && _); [intros [= <-]; auto|discriminate].
Qed.

Lemma loghelper_raises (L : libm) (a : number) (e : exn) :
  loghelper L a = Raise e -> e = ValueError "math domain error".
Proof.
  unfold loghelper. destruct a as [z|x].
  - destruct (z <=? 0); [congruence|].
    destruct (long_as_double z); [discriminate|].
    destruct (long_frexp z). discriminate.
  - destruct (_ && _); [congruence|]. destruct (_ && _); [congruence|discriminate].
Qed.

Lemma math_log_raises (L : libm) (a base : number) (e : exn) :
  math_log L a base = Raise e ->
  e = ZeroDivisionError \/ e = ValueError "math domain error".
Proof.
  unfold math_log.
  destruct (loghelper L a) as [n|e1] eqn:Hn; cbn [Py.bind];
    [|intros [= <-]; right; eapply loghelper_raises, Hn].
  destruct (loghelper L base) as [d|e2] eqn:Hd; cbn [Py.bind];
    [|intros [= <-]; right; eapply loghelper_raises, Hd].
  unfold float_div. destruct (d =? 0)%float; cbn [Py.map Py.bind];
    [intros [= <-]; auto|discriminate].
Qed.

(** A value of [map] is an error only if its argument is. *)
Lemma map_raises {A B : Type} (f : A -> B) (r : Py.result A) (e : exn) :
  Py.map f r = Raise e -> r = Raise e.
Proof. destruct r; cbn; congruence. Qed.

Lemma known_error_message (op msg : string) (i : nat) :
  known_messages op !! i = Some msg -> known_error op (ValueError msg).
Proof.
  intros Hi. right. right. exists msg. split; [reflexivity|].
  eapply list_elem_of_lookup_2, Hi.
Qed.

Lemma log_raises (L : libm) (a base : number) (e : exn) :
  log L a base = Raise e -> known_error "log" e.
Proof.
  unfold log. destruct (_ || _).
  - intros [= <-]. apply (known_error_message "log" _ 4). reflexivity.
  - intros He. apply map_raises, math_log_raises in He as [->| ->].
    + right. left. auto.
    + apply (known_error_message "log" _ 5). reflexivity.
Qed.

Lemma outcome_known_raises (L : libm) (op : string) (args : list number) (e : exn) :
  op ∈ symbols ->
  outcome (operations (__init__ L)) op args = Raise e -> known_error op e.
Proof.
  intros Hop. unfold symbols in Hop. rewrite !elem_of_cons, elem_of_nil in Hop.
  assert (Hbin : forall op', op' ∈ binary_symbols -> (length args < 2)%nat ->
            outcome (operations (__init__ L)) op' args = Raise e -> known_error op' e).
  { intros op' Hop' Hn. rewrite outcome_binary_count by assumption.
    intros [= <-]. apply (known_error_message op' _ 1). reflexivity. }
  destruct Hop as [->|[->|[->|[->|[->|[->|[->|[]]]]]]]].
  - destruct args as [|a [|b rest]];
      [apply Hbin; [in_list|cbn; lia]..|].
    rewrite outcome_add. intros He. apply map_raises, arith_raises in He as [-> _].
    left. reflexivity.
  - destruct args as [|a [|b rest]];
      [apply Hbin; [in_list|cbn; lia]..|].
    rewrite outcome_subtract. intros He. apply map_raises, arith_raises in He as [-> _].
    left. reflexivity.
  - destruct args as [|a [|b rest]];
      [apply Hbin; [in_list|cbn; lia]..|].
    rewrite outcome_multiply. intros He. apply map_raises, arith_raises in He as [-> _].
    left. reflexivity.
  - destruct args as [|a [|b rest]];
      [apply Hbin; [in_list|cbn; lia]..|].
    rewrite outcome_divide. unfold divide. destruct (eq_zero b) eqn:Hb.
    + intros [= <-]. apply (known_error_message "/" _ 2). reflexivity.
    + intros He. apply map_raises, truediv_raises in He as [-> _]; [|assumption].
      left. reflexivity.
  - destruct args as [|a [|b rest]];
      [apply Hbin; [in_list|cbn; lia]..|].
    rewrite outcome_power. unfold power. intros He.
    apply pow_raises in He as [->| ->]; [right; left; auto|left; reflexivity].
  - destruct args as [|a [|b rest]];
      [rewrite outcome_sqrt_count by (cbn; lia); intros [= <-];
       apply (known_error_message "sqrt" _ 0); reflexivity| |
       rewrite outcome_sqrt_count by (cbn; lia); intros [= <-];
       apply (known_error_message "sqrt" _ 0); reflexivity].
    rewrite outcome_sqrt. unfold Calculator.sqrt. destruct (lt_zero a).
    + intros [= <-]. apply (known_error_message "sqrt" _ 3). reflexivity.
    + intros He. apply map_raises, math_sqrt_raises in He as [->| ->].
      * left. reflexivity.
      * apply (known_error_message "sqrt" _ 5). reflexivity.
  - destruct args as [|a [|b [|c rest]]];
      [rewrite outcome_log_count by (cbn; lia); intros [= <-];
       apply (known_error_message "log" _ 0); reflexivity| | |
       rewrite outcome_log_count by (cbn; lia); intros [= <-];
       apply (known_error_message "log" _ 0); reflexivity].
    + rewrite outcome_log1. apply log_raises.
    + rewrite outcome_log2. apply log_raises.
Qed.

(** X5: on a calculator built by the constructor, a call to [calculate]
    that fails raises [OverflowError], or [ZeroDivisionError] (from ['**']
    and ['log'] only), or a [ValueError] whose text is the
    unknown-operation message or one of [known_messages]; the look-ups in
    the dictionary, the indexing of the operands and the calls of the
    methods never fail: no [KeyError], [IndexError] or [TypeError]. *)
Theorem calculate_exceptions (L : libm) (h : list Calculation)
    (op : string) (args : list number) (e : exn) :
  fst (calculate op args (with_history L h)) = Raise e ->
  (e = OverflowError \/
   (e = ZeroDivisionError /\ (op = "**" \/ op = "log")) \/
   (exists msg, e = ValueError msg /\
      msg ∈ ("Unknown operation: " +:+ op) :: known_messages op)) /\
  e <> KeyError /\ e <> IndexError /\ e <> TypeError.
Proof.
  rewrite calculate_with_history.
  destruct (outcome (operations (__init__ L)) op args) as [v|e'] eqn:Hout;
    cbn [fst]; [discriminate|]. intros [= <-].
  assert (Hcases : e' = OverflowError \/
    (e' = ZeroDivisionError /\ (op = "**" \/ op = "log")) \/
    (exists msg, e' = ValueError msg /\
       msg ∈ ("Unknown operation: " +:+ op) :: known_messages op)).
  { destruct (decide (op ∈ symbols)) as [Hop|Hop].
    - destruct (outcome_known_raises L op args e' Hop Hout) as [H|[H|(msg & H & Hin)]];
        [auto|auto|].
      right. right. exists msg. split; [exact H|]. apply elem_of_cons. right. exact Hin.
    - rewrite outcome_unknown in Hout by assumption. injection Hout as <-.
      right. right. eexists. split; [reflexivity|]. apply elem_of_cons. left. reflexivity. }
  split; [exact Hcases|].
  destruct Hcases as [->|[[-> _]|(msg & -> & _)]]; repeat split; discriminate.
Qed.

Lemma calculate_exceptions_witness :
  (ZeroDivisionError = OverflowError \/
   (ZeroDivisionError = ZeroDivisionError /\ ("log" = "**" \/ "log" = "log")) \/
   (exists msg, ZeroDivisionError = ValueError msg /\
      msg ∈ ("Unknown operation: " +:+ "log") :: known_messages "log")) /\
  ZeroDivisionError <> KeyError /\ ZeroDivisionError <> IndexError /\
  ZeroDivisionError <> TypeError.
Proof.
  apply (calculate_exceptions table_libm [] "log" [Int 100; Int 1] ZeroDivisionError).
  rewrite (log_base_one_raises_any table_libm [] 100); reflexivity.
Defined.

(** X6: on a calculator built by the constructor, [calculate] raises the
    unknown-operation error exactly for the symbols outside the seven:
    no call with one of the seven symbols, whatever its operands, is
    answered with "Unknown operation". *)
Theorem unknown_operation_iff (L : libm) (h : list Calculation)
    (op : string) (args : list number) :
  fst (calculate op args (with_history L h)) =
    Raise (ValueError ("Unknown operation: " +:+ op)) <->
  op ∉ symbols.
Proof.
  rewrite calculate_with_history. split.
  - intros Hcall Hop.
    destruct (outcome (operations (__init__ L)) op args) as [v|e] eqn:Hout;
      cbn [fst] in Hcall; [discriminate|]. injection Hcall as ->.
    destruct (outcome_known_raises L op args _ Hop Hout) as [H|[[H _]|(msg & H & Hin)]];
      try discriminate.
    injection H as <-. unfold known_messages in Hin.
    rewrite !elem_of_cons, elem_of_nil in Hin.
    destruct Hin as [H|[H|[H|[H|[H|[H|[]]]]]]]; cbn in H; discriminate.
  - intros Hop. rewrite outcome_unknown by assumption. reflexivity.
Qed.

(** ** Invariants of the objects a program can hold *)

(** X2: no method changes the dictionary of operations: in every
    calculator a program can hold it is the constructor's, and
    [op in self.operations] holds exactly for the seven symbols. *)
Theorem operations_never_change (L : libm) (self : instance) :
  reachable L self ->
  operations self = operations (__init__ L) /\
  forall op, is_Some (operations self !! op) <-> op ∈ symbols.
Proof.
  intros Hreach. destruct (reachable_with_history L self Hreach) as [h ->].
  split; [reflexivity|]. intros op. cbn [with_history operations]. split.
  - intros Hsome. destruct (decide (op ∈ symbols)) as [Hop|Hop]; [exact Hop|].
    rewrite operations_unknown in Hsome by assumption. destruct Hsome as [? [=]].
  - apply operations_known.
Qed.

Lemma operations_never_change_witness :
  let self := snd (clear_history (snd (calculate "+" [Int 2; Int 3] (__init__ table_libm)))) in
  operations self = operations (__init__ table_libm) /\
  forall op, is_Some (operations self !! op) <-> op ∈ symbols.
Proof.
  apply (operations_never_change table_libm).
  apply reachable_clear_history, reachable_calculate, reachable_init.
Defined.

(** X11: whatever calls came before, [clear_history()] leaves the
    calculator as the constructor makes it. *)
Theorem clear_history_resets (L : libm) (self : instance) :
  reachable L self -> snd (clear_history self) = __init__ L.
Proof.
  intros Hreach. destruct (reachable_with_history L self Hreach) as [h ->].
  reflexivity.
Qed.

Lemma clear_history_resets_witness :
  snd (clear_history (snd (calculate "+" [Int 2; Int 3] (__init__ table_libm)))) =
    __init__ table_libm.
Proof.
  apply (clear_history_resets table_libm).
  apply reachable_calculate, reachable_init.
Defined.

(** Every record of a history is the record of a call that returned its
    result. *)
Lemma reachable_records (L : libm) (self : instance) :
  reachable L self ->
  forall c, c ∈ history self ->
  outcome (operations (__init__ L)) (operation c) (operands c) = Ok (result c) /\
  c = record_of (operation c) (operands c) (result c).
Proof.
  induction 1 as [|self op args Hreach IH|self _ IH|self _ IH]; intros c Hc.
  - cbn in Hc. apply elem_of_nil in Hc. destruct Hc.
  - destruct (reachable_with_history L self Hreach) as [h ->].
    rewrite calculate_with_history in Hc.
    destruct (outcome (operations (__init__ L)) op args) as [v|e] eqn:Hout;
      cbn [snd with_history history] in Hc; [|apply IH, Hc].
    apply elem_of_app in Hc as [Hc|Hc]; [apply IH, Hc|].
    apply list_elem_of_singleton in Hc as ->. split; [exact Hout|reflexivity].
  - apply IH, Hc.
  - cbn in Hc. apply elem_of_nil in Hc. destruct Hc.
Qed.

(** A call that returns has a known operation and an operand count
    [calculate] accepts for it. *)
Lemma outcome_ok_well_formed (L : libm) (op : string) (args : list number) (v : value) :
  outcome (operations (__init__ L)) op args = Ok v ->
  op ∈ symbols /\
  (op = "sqrt" -> length args = 1%nat) /\
  (op = "log" -> length args = 1%nat \/ length args = 2%nat) /\
  (op ∈ binary_symbols -> (2 <= length args)%nat).
Proof.
  intros Hout. split; [|split; [|split]].
  - destruct (decide (op ∈ symbols)) as [Hop|Hop]; [exact Hop|].
    rewrite outcome_unknown in Hout by assumption. discriminate.
  - intros ->. destruct (decide (length args = 1%nat)) as [Hn|Hn]; [exact Hn|].
    rewrite outcome_sqrt_count in Hout by assumption. discriminate.
  - intros ->. destruct (decide (length args = 1%nat)) as [H1|H1]; [auto|].
    destruct (decide (length args = 2%nat)) as [H2|H2]; [auto|].
    rewrite outcome_log_count in Hout by assumption. discriminate.
  - intros Hop. destruct (decide (2 <= length args)%nat) as [Hn|Hn]; [exact Hn|].
    rewrite outcome_binary_count in Hout by (assumption || lia). discriminate.
Qed.

(** X3: every record of every history a program can build is well
    formed: its operation is one of the seven symbols, a ['sqrt'] record
    has exactly one operand, a ['log'] record one or two, and a record of
    [+ - * / **] at least two. *)
Theorem history_well_formed (L : libm) (self : instance) :
  reachable L self -> forall c, c ∈ history self -> well_formed c.
Proof.
  intros Hreach c Hc.
  destruct (reachable_records L self Hreach c Hc) as [Hout _].
  exact (outcome_ok_well_formed L _ _ _ Hout).
Qed.

(** The history after [calculate('sqrt', 16)] on a new calculator. *)
Lemma sqrt_16_history :
  record_of "sqrt" [Int 16] (Num (Float 4)) ∈
    history (snd (calculate "sqrt" [Int 16] (__init__ table_libm))).
Proof.
  rewrite init_with_history, calculate_with_history, outcome_sqrt.
  apply list_elem_of_singleton. reflexivity.
Qed.

Lemma history_well_formed_witness :
  well_formed (record_of "sqrt" [Int 16] (Num (Float 4))).
Proof.
  apply (history_well_formed table_libm
           (snd (calculate "sqrt" [Int 16] (__init__ table_libm)))).
  - apply reachable_calculate, reachable_init.
  - exact sqrt_16_history.
Defined.

(** X4: every record of a history a program can build can be replayed:
    on any calculator built by the constructor, [calculate] with the
    record's operation and operands returns the record's result and
    appends a record equal to it. *)
Theorem history_replays (L : libm) (self : instance) :
  reachable L self ->
  forall c, c ∈ history self ->
  forall h,
    calculate (operation c) (operands c) (with_history L h) =
      (Ok (result c), with_history L (h ++ [c])).
Proof.
  intros Hreach c Hc h.
  destruct (reachable_records L self Hreach c Hc) as [Hout Hrec].
  rewrite calculate_with_history, Hout, <- Hrec. reflexivity.
Qed.

Lemma history_replays_witness :
  calculate "sqrt" [Int 16] (with_history table_libm []) =
    (Ok (Num (Float 4)),
     with_history table_libm ([] ++ [record_of "sqrt" [Int 16] (Num (Float 4))])).
Proof.
  apply (history_replays table_libm
           (snd (calculate "sqrt" [Int 16] (__init__ table_libm)))
           (reachable_calculate _ _ _ _ (reachable_init _))
           (record_of "sqrt" [Int 16] (Num (Float 4))) sqrt_16_history []).
Defined.

(** ** Calls in sequence *)

(** [main]'s seven calls are such a block. *)
Lemma main_calls_all (self : instance) :
  main_calls self = calculate_all main_arguments self.
Proof.
  unfold main_calls, main_arguments, calculate_all, seq, ret. cbn [fst snd].
  repeat match goal with
  | |- context [match calculate ?op ?args ?s with _ => _ end] =>
      lazymatch s with
      | context [calculate] => fail
      | _ => destruct (calculate op args s) as [[?|?] ?]
      end
  end; reflexivity.
Qed.

Lemma calculate_all_history (L : libm) (calls : list (string * list number)) :
  forall h,
    match calculate_all calls (with_history L h) with
    | (Ok vs, self') =>
        length vs = length calls /\
        self' = with_history L (h ++ records_of calls vs)
    | (Raise e, self') =>
        exists vs,
          (length vs < length calls)%nat /\
          self' = with_history L (h ++ records_of calls vs) /\
          match calls !! length vs with
          | Some call => fst (calculate (fst call) (snd call) self') = Raise e
          | None => False
          end
    end.
Proof.
  induction calls as [|call rest IH]; intros h.
  - cbn. rewrite app_nil_r. split; reflexivity.
  - cbn [calculate_all]. unfold seq at 1. rewrite calculate_with_history.
    destruct (outcome (operations (__init__ L)) (fst call) (snd call)) as [v|e] eqn:Hout.
    + unfold seq at 1. specialize (IH (h ++ [record_of (fst call) (snd call) v])).
      destruct (calculate_all rest _) as [[vs|e] self'].
      * destruct IH as [Hlen ->]. unfold ret. split; [cbn; lia|].
        cbn [records_of]. rewrite <- app_assoc. reflexivity.
      * destruct IH as (vs & Hlen & -> & Hfail). exists (v :: vs).
        split; [cbn; lia|]. split.
        -- cbn [records_of]. rewrite <- app_assoc. reflexivity.
        -- exact Hfail.
    + exists []. split; [cbn; lia|]. split.
      * cbn. rewrite app_nil_r. reflexivity.
      * cbn [length lookup list_lookup]. rewrite calculate_with_history, Hout. reflexivity.
Qed.

(** X1: a [try] block of calls to [calculate], such as [main]'s, keeps the
    history as the log of what returned.  When every call returns, there
    are as many results as calls and the history has grown by one record
    per call, in call order; when a call raises, the block ends there with
    that exception, and the history has grown by the records of the calls
    before it only. *)
Theorem calls_are_logged (L : libm) :
  (forall self, main_calls self = calculate_all main_arguments self) /\
  (forall calls h,
     match calculate_all calls (with_history L h) with
     | (Ok vs, self') =>
         length vs = length calls /\
         self' = with_history L (h ++ records_of calls vs)
     | (Raise e, self') =>
         exists vs,
           (length vs < length calls)%nat /\
           self' = with_history L (h ++ records_of calls vs) /\
           match calls !! length vs with
           | Some call => fst (calculate (fst call) (snd call) self') = Raise e
           | None => False
           end
     end).
Proof.
  split; [exact main_calls_all|]. intros calls h. apply calculate_all_history.
Qed.

(** ** The kind of number a call returns *)

Lemma arith_kind (iop : Z -> Z -> Z) (fop : float -> float -> float)
    (a b n : number) :
  arith iop fop a b = Ok n ->
  match a, b with
  | Int x, Int y => n = Int (iop x y)
  | _, _ => exists f, n = Float f
  end.
Proof.
  destruct a as [x|x], b as [y|y]; cbn [arith as_double Py.bind].
  - congruence.
  - destruct (long_as_double x); cbn [Py.bind]; [|discriminate]. intros [= <-]. eauto.
  - destruct (long_as_double y); cbn [Py.bind]; [|discriminate]. intros [= <-]. eauto.
  - intros [= <-]. eauto.
Qed.

Lemma map_ok {A B : Type} (f : A -> B) (r : Py.result A) (b : B) :
  Py.map f r = Ok b -> exists a, r = Ok a /\ b = f a.
Proof. destruct r; cbn; [intros [= <-]; eauto|discriminate]. Qed.

(** X13: what kind of number a call returns.  ['/'], ['sqrt'] and ['log']
    return a float whenever they return, also for [int] operands with a
    whole quotient or root; ['+'], ['-'] and ['*'] return an [int], the
    exact one, when both operands used are ints, and a float otherwise. *)
Theorem result_kinds (L : libm) (h : list Calculation) :
  (forall op args v,
     op ∈ ["/"; "sqrt"; "log"] ->
     fst (calculate op args (with_history L h)) = Ok v ->
     exists f, v = Num (Float f)) /\
  (forall op a b rest v,
     op ∈ ["+"; "-"; "*"] ->
     fst (calculate op (a :: b :: rest) (with_history L h)) = Ok v ->
     match a, b with
     | Int x, Int y =>
         v = Num (Int (if decide (op = "+") then x + y
                       else if decide (op = "-") then x - y else x * y))
     | _, _ => exists f, v = Num (Float f)
     end).
Proof.
  split.
  - intros op args v Hop. rewrite calculate_with_history.
    destruct (outcome (operations (__init__ L)) op args) as [v'|e] eqn:Hout;
      cbn [fst]; [|discriminate]. intros [= ->].
    destruct (outcome_ok_well_formed L op args v Hout) as (_ & Hsqrt & Hlog & Hbin).
    rewrite !elem_of_cons, elem_of_nil in Hop. destruct Hop as [->|[->|[->|[]]]].
    + assert (Hn : (2 <= length args)%nat)
        by (apply Hbin; in_list).
      destruct args as [|a [|b rest]]; cbn in Hn; try lia.
      rewrite outcome_divide in Hout. unfold divide in Hout.
      destruct (eq_zero b); [discriminate|].
      apply map_ok in Hout as (q & Hq & ->).
      destruct a as [x|x], b as [y|y]; cbn [truediv] in Hq;
        [apply map_ok in Hq as (f & _ & ->); eauto|..];
        (destruct (as_double _); cbn [Py.bind] in Hq; [|discriminate]);
        (destruct (as_double _); cbn [Py.bind] in Hq; [|discriminate]);
        apply map_ok in Hq as (f' & _ & ->); eauto.
    + specialize (Hsqrt eq_refl). destruct args as [|a [|b rest]]; cbn in Hsqrt; try lia.
      rewrite outcome_sqrt in Hout. unfold Calculator.sqrt in Hout.
      destruct (lt_zero a); [discriminate|].
      apply map_ok in Hout as (q & Hq & ->). unfold math_sqrt in Hq.
      destruct (as_double a); cbn [Py.bind] in Hq; [|discriminate].
      destruct (_ && _); [discriminate|]. injection Hq as <-. eauto.
    + assert (Hlog' : forall a base, log L a base = Ok v -> exists f, v = Num (Float f)).
      { intros a base. unfold log. destruct (_ || _); [discriminate|].
        intros Hq. apply map_ok in Hq as (q & Hq & ->). unfold math_log in Hq.
        destruct (loghelper L a); cbn [Py.bind] in Hq; [|discriminate].
        destruct (loghelper L base); cbn [Py.bind] in Hq; [|discriminate].
        apply map_ok in Hq as (f & _ & ->). eauto. }
      destruct (Hlog eq_refl) as [Hn|Hn];
        destruct args as [|a [|b [|c rest]]]; cbn in Hn; try lia.
      * rewrite outcome_log1 in Hout. eapply Hlog', Hout.
      * rewrite outcome_log2 in Hout. eapply Hlog', Hout.
  - intros op a b rest v Hop. rewrite calculate_with_history.
    rewrite !elem_of_cons, elem_of_nil in Hop.
    destruct Hop as [->|[->|[->|[]]]];
      [rewrite outcome_add; unfold add, Py.add
      |rewrite outcome_subtract; unfold subtract, Py.sub
      |rewrite outcome_multiply; unfold multiply, Py.mul];
      match goal with
      | |- context [arith ?i ?f a b] =>
          destruct (arith i f a b) as [n|e] eqn:Hr; cbn [Py.map Py.bind fst];
            [|discriminate]; intros [= <-];
            pose proof (arith_kind i f a b n Hr) as Hk
      end;
      destruct a as [x|x], b as [y|y];
        first [subst n; reflexivity | destruct Hk as [f ->]; eauto].
Qed.

Lemma result_kinds_witness :
  exists f, Num (Float 5) = Num (Float f).
Proof.
  apply (proj1 (result_kinds table_libm []) "/" [Int 15; Int 3] (Num (Float 5))).
  - apply elem_of_cons. left. reflexivity.
  - rewrite calculate_with_history, outcome_divide. reflexivity.
Defined.

(** ** Complex results *)

Lemma float_pow_complex (L : libm) (x y re im : float) :
  float_pow L x y = Ok (Complex re im) ->
  (x <? 0)%float = true /\ is_integer y = false.
Proof.
  unfold float_pow, complex_pow.
  destruct (y =? 0)%float; [discriminate|].
  destruct (is_nan x); [discriminate|].
  destruct (is_nan y); [discriminate|].
  destruct (is_infinity y).
  { repeat match goal with
    | |- context [if ?c then _ else _] => destruct c
    end; discriminate. }
  destruct (is_infinity x).
  { destruct (0 <? y)%float; discriminate. }
  destruct (x =? 0)%float.
  { destruct (y <? 0)%float; discriminate. }
  destruct (x <? 0)%float; cbn [andb].
  - destruct (is_integer y); cbn [negb]; [|auto].
    destruct (_ =? 1)%float; [discriminate|].
    destruct (is_infinity (c_pow L _ _)); discriminate.
  - destruct (x =? 1)%float; [discriminate|].
    destruct (is_infinity (c_pow L _ _)); discriminate.
Qed.

(** X12: ['**'] is the one operation that can leave the real numbers, and
    it does so only for a negative base with an exponent that is not a
    whole number: whenever [calculate('**', a, b)] returns a complex
    number, the float of [a] is below zero and the float of [b] is not an
    integer; no other operation ever returns a complex number. *)
Theorem complex_only_from_power (L : libm) (h : list Calculation)
    (op : string) (args : list number) (re im : float) :
  fst (calculate op args (with_history L h)) = Ok (Complex re im) ->
  op = "**" /\
  exists a b rest x y,
    args = a :: b :: rest /\ as_double a = Ok x /\ as_double b = Ok y /\
    (x <? 0)%float = true /\ is_integer y = false.
Proof.
  rewrite calculate_with_history.
  destruct (outcome (operations (__init__ L)) op args) as [v|e] eqn:Hout;
    cbn [fst]; [|discriminate]. intros [= ->].
  destruct (outcome_ok_well_formed L op args _ Hout) as (Hop & Hsqrt & Hlog & Hbin).
  assert (Hnum : forall r : Py.result number, Py.map Num r <> Ok (Complex re im)).
  { intros [n|e]; cbn; congruence. }
  unfold symbols in Hop. rewrite !elem_of_cons, elem_of_nil in Hop.
  destruct Hop as [->|[->|[->|[->|[->|[->|[->|[]]]]]]]];
    try (assert (Hn : (2 <= length args)%nat)
           by (apply Hbin; in_list);
         destruct args as [|a [|b rest]]; cbn in Hn; try lia).
  - rewrite outcome_add in Hout. exfalso. eapply Hnum, Hout.
  - rewrite outcome_subtract in Hout. exfalso. eapply Hnum, Hout.
  - rewrite outcome_multiply in Hout. exfalso. eapply Hnum, Hout.
  - rewrite outcome_divide in Hout. unfold divide in Hout.
    destruct (eq_zero b); [discriminate|]. exfalso. eapply Hnum, Hout.
  - split; [reflexivity|]. rewrite outcome_power in Hout. unfold power in Hout.
    exists a, b, rest.
    destruct a as [x|x], b as [y|y]; cbn [Py.pow as_double Py.bind] in Hout |- *.
    + destruct (0 <=? y); [discriminate|].
      destruct (long_as_double x) as [fx|]; cbn [Py.bind] in Hout; [|discriminate].
      destruct (long_as_double y) as [fy|]; cbn [Py.bind] in Hout; [|discriminate].
      exists fx, fy. repeat split; eapply float_pow_complex, Hout.
    + destruct (long_as_double x) as [fx|]; cbn [Py.bind] in Hout; [|discriminate].
      exists fx, y. repeat split; eapply float_pow_complex, Hout.
    + destruct (long_as_double y) as [fy|]; cbn [Py.bind] in Hout; [|discriminate].
      exists x, fy. repeat split; eapply float_pow_complex, Hout.
    + exists x, y. repeat split; eapply float_pow_complex, Hout.
  - specialize (Hsqrt eq_refl). destruct args as [|a [|b rest]]; cbn in Hsqrt; try lia.
    rewrite outcome_sqrt in Hout. unfold Calculator.sqrt in Hout.
    destruct (lt_zero a); [discriminate|]. exfalso. eapply Hnum, Hout.
  - assert (Hlog' : forall a base, log L a base <> Ok (Complex re im)).
    { intros a base. unfold log. destruct (_ || _); [discriminate|]. apply Hnum. }
    destruct (Hlog eq_refl) as [Hn|Hn];
      destruct args as [|a [|b [|c rest]]]; cbn in Hn; try lia.
    + rewrite outcome_log1 in Hout. exfalso. eapply Hlog', Hout.
    + rewrite outcome_log2 in Hout. exfalso. eapply Hlog', Hout.
Qed.

Lemma complex_only_from_power_witness :
  "**" = "**" /\
  exists a b rest x y,
    [Float (-8); Float 0.5] = a :: b :: rest /\
    as_double a = Ok x /\ as_double b = Ok y /\
    (x <? 0)%float = true /\ is_integer y = false.
Proof.
  apply (complex_only_from_power complex_libm [] "**" [Float (-8); Float 0.5]
           0x1.8f5a0be038ed7p-53%float 0x1.6a09e667f3bcdp+1%float).
  rewrite calculate_with_history, outcome_power. reflexivity.
Defined.
